(** * writesrc: helper functions for writing source code for data

    A shallow embedding of [tools/toolutil/writesrc.cpp] (ICU), the
    serializer that renders numeric arrays, byte arrays, code point tries,
    code point sets and code point maps as C source text or as TOML text,
    together with the properties its specification states about it.

    Conventions of the embedding:
    - a [FILE *] is the text written to it so far; the functions take the
      pair of streams they may write to ([f] and [stderr]) and return it;
    - [fprintf] interprets the C format string itself;
    - fixed-width integers are [Z] with the wrap-around written out;
    - [abort()] and a failed [U_ASSERT] end the run with [Aborted]. *)

From Stdlib Require Import ZArith List Bool Lia Ascii String.
From Stdlib Require Import DecimalString HexadecimalString.
Import ListNotations.

Open Scope list_scope.
Open Scope string_scope.
Open Scope Z_scope.

(** ** Characters and text *)

Definition LF : string := String "010"%char EmptyString.
Definition DQUOTE : string := String "034"%char EmptyString.
Definition BACKSLASH : string := String "092"%char EmptyString.

Fixpoint count_char (c : ascii) (s : string) : Z :=
  match s with
  | EmptyString => 0
  | String a r => (if Ascii.eqb a c then 1 else 0) + count_char c r
  end.

Fixpoint flatten (l : list string) : string :=
  match l with
  | [] => EmptyString
  | s :: r => s ++ flatten r
  end.

(** ** Fixed-width integers *)

Definition to_unsigned (bits z : Z) : Z := z mod 2 ^ bits.

Definition to_signed (bits z : Z) : Z :=
  let u := z mod 2 ^ bits in
  if u <? 2 ^ (bits - 1) then u else u - 2 ^ bits.

(** [long] is 64 bits wide (LP64), [int] is 32 bits wide. *)
Definition LONG_BITS : Z := 64.
Definition INT_BITS : Z := 32.

(** ** printf *)

Definition dec (z : Z) : string :=
  DecimalString.NilZero.string_of_int (Z.to_int z).

Definition hex (z : Z) : string :=
  HexadecimalString.NilZero.string_of_uint (N.to_hex_uint (Z.to_N z)).

Inductive arg : Type :=
| Int (z : Z)
| Str (s : string).

(** The next variadic argument read as an integer, or as a string.  Reading
    an argument that was not passed, or at the wrong type, is undefined in
    C; here it reads as [0], or as the empty string. *)
Definition va_int (args : list arg) : Z * list arg :=
  match args with
  | Int z :: r => (z, r)
  | Str _ :: r => (0, r)
  | [] => (0, [])
  end.

Definition va_str (args : list arg) : string * list arg :=
  match args with
  | Str s :: r => (s, r)
  | Int _ :: r => (EmptyString, r)
  | [] => (EmptyString, [])
  end.

(** What a format string expands to: its own characters, and the converted
    arguments. *)
Inductive piece : Type :=
| Lit (c : ascii)
| Val (s : string).

Definition piece_text (p : piece) : string :=
  match p with
  | Lit c => String c EmptyString
  | Val s => s
  end.

Definition conv_int (render : Z -> string) (k : list arg -> list piece)
  (args : list arg) : list piece :=
  let (z, r) := va_int args in Val (render z) :: k r.

Definition conv_str (k : list arg -> list piece) (args : list arg)
  : list piece :=
  let (s, r) := va_str args in Val s :: k r.

(** The conversions this file uses: [%ld %lx %d %u %x %c %s %%]. *)
Fixpoint printf_pieces (fmt : string) (args : list arg) : list piece :=
  match fmt with
  | EmptyString => []
  | String c r =>
    if negb (Ascii.eqb c "%") then Lit c :: printf_pieces r args else
    match r with
    | EmptyString => []
    | String d r1 =>
      if Ascii.eqb d "%" then Lit "%" :: printf_pieces r1 args
      else if Ascii.eqb d "d" then
        conv_int (fun z => dec (to_signed INT_BITS z)) (printf_pieces r1) args
      else if Ascii.eqb d "u" then
        conv_int (fun z => dec (to_unsigned INT_BITS z)) (printf_pieces r1) args
      else if Ascii.eqb d "x" then
        conv_int (fun z => hex (to_unsigned INT_BITS z)) (printf_pieces r1) args
      else if Ascii.eqb d "c" then
        conv_int (fun z => String (ascii_of_N (Z.to_N (to_unsigned 8 z))) EmptyString)
                 (printf_pieces r1) args
      else if Ascii.eqb d "s" then conv_str (printf_pieces r1) args
      else if Ascii.eqb d "l" then
        match r1 with
        | EmptyString => []
        | String e r2 =>
          if Ascii.eqb e "d" then
            conv_int (fun z => dec (to_signed LONG_BITS z)) (printf_pieces r2) args
          else if Ascii.eqb e "x" then
            conv_int (fun z => hex (to_unsigned LONG_BITS z)) (printf_pieces r2) args
          else printf_pieces r2 args
        end
      else printf_pieces r1 args
    end
  end.

Definition sprintf (fmt : string) (args : list arg) : string :=
  flatten (map piece_text (printf_pieces fmt args)).

(** The converted arguments alone, in the order they are written. *)
Fixpoint values (ps : list piece) : list string :=
  match ps with
  | [] => []
  | Lit _ :: r => values r
  | Val s :: r => s :: values r
  end.

(** [snprintf(buf, size, fmt, ...)]: at most [size - 1] characters are kept. *)
Definition snprintf (size : nat) (fmt : string) (args : list arg) : string :=
  substring 0 (size - 1) (sprintf fmt args).

(** [PRId64] and [PRIx64] of [<cinttypes>] where [int64_t] is [long]. *)
Definition PRId64 : string := "ld".
Definition PRIx64 : string := "lx".

(** ** Streams *)

(** The two streams the functions write to: the destination [f] and the
    diagnostic stream [stderr], each as the text written so far. *)
Record stdio : Type := mkStdio { f : string; stderr : string }.

Definition fputs (s : string) (io : stdio) : stdio :=
  mkStdio (f io ++ s) (stderr io).

Definition fputc (c : ascii) (io : stdio) : stdio :=
  mkStdio (f io ++ String c EmptyString) (stderr io).

Definition fprintf (fmt : string) (args : list arg) (io : stdio) : stdio :=
  mkStdio (f io ++ sprintf fmt args) (stderr io).

Definition fprintf_stderr (fmt : string) (args : list arg) (io : stdio) : stdio :=
  mkStdio (f io) (stderr io ++ sprintf fmt args).

(** [if(prefix!=nullptr) fprintf(f, prefix, ...)] and
    [if(postfix!=nullptr) fputs(postfix, f)]. *)
Definition fprintf_opt (fmt : option string) (args : list arg) (io : stdio)
  : stdio :=
  match fmt with
  | Some fmt => fprintf fmt args io
  | None => io
  end.

Definition fputs_opt (s : option string) (io : stdio) : stdio :=
  match s with
  | Some s => fputs s io
  | None => io
  end.

(** How a call ends: it returns, or the process is aborted ([abort()], a
    failed [U_ASSERT]); either way with what the streams hold by then. *)
Inductive outcome : Type :=
| Returned (io : stdio)
| Aborted (io : stdio).

Definition bind (o : outcome) (k : stdio -> outcome) : outcome :=
  match o with
  | Returned io => k io
  | Aborted io => Aborted io
  end.

Notation "'do' io <- o ; k" := (bind o (fun io => k))
  (at level 10, io name, o at level 100, k at level 200).

(** A counted loop [for(i=0; i<n; ++i) body]: the body, which also steps the
    loop variables, run [n] times. *)
Definition for_loop {S : Type} (n : nat) (body : S -> S) (s : S) : S :=
  Nat.iter n body s.

(** ** usrc_writeArray *)

(** The element [i] of the array behind [p], read at the element type the
    width selects: [uint8_t], [uint16_t], [uint32_t], [int64_t].  [p] lists
    the elements; an index past its end (undefined in C) reads as [0]. *)
Definition element (p : list Z) (i : Z) : Z := nth (Z.to_nat i) p 0.

Definition recognized_width (width : Z) : bool :=
  (width =? 8) || (width =? 16) || (width =? 32) || (width =? 64).

Record array_loop : Type := mkArrayLoop { a_i : Z; a_col : Z; a_io : stdio }.

(** The separator written before the element [i], and the column after it. *)
Definition usrc_writeArray_separator (indent : string) (i col : Z) (io : stdio)
  : stdio * Z :=
  if 0 <? i then
    if col <? 16 then (fputc "," io, col)
    else (fputs indent (fputs ("," ++ LF) io), 0)
  else (io, col).

(** The second [switch(width)]: the element read into [int64_t value]. *)
Definition usrc_writeArray_value (p : list Z) (width i : Z) : Z :=
  if width =? 8 then to_unsigned 8 (element p i)
  else if width =? 16 then to_unsigned 16 (element p i)
  else if width =? 32 then to_unsigned 32 (element p i)
  else if width =? 64 then to_signed 64 (element p i)
  else 0.

Definition usrc_writeArray_body (p : list Z) (width : Z) (indent : string)
  (s : array_loop) : array_loop :=
  let i := a_i s in
  let '(io, col) := usrc_writeArray_separator indent i (a_col s) (a_io s) in
  let value := usrc_writeArray_value p width i in
  let io :=
    fprintf (if value <=? 9 then "%" ++ PRId64 else "0x%" ++ PRIx64)
            [Int value] io in
  mkArrayLoop (i + 1) (col + 1) io.

Definition usrc_writeArray_loop (p : list Z) (width : Z) (indent : string)
  (n : nat) (io : stdio) : array_loop :=
  for_loop n (usrc_writeArray_body p width indent) (mkArrayLoop 0 0 io).

Definition usrc_writeArray (io : stdio) (prefix : option string)
  (p : list Z) (width length : Z) (indent : string) (postfix : option string)
  : stdio :=
  if negb (recognized_width width) then
    fprintf_stderr ("usrc_writeArray(width=%ld) unrecognized width" ++ LF)
                   [Int width] io
  else
    let io := fprintf_opt prefix [Int length] io in
    let io := a_io (usrc_writeArray_loop p width indent (Z.to_nat length) io) in
    fputs_opt postfix io.

(** ** The target syntax and the code point trie *)

(** Modelled from the spec: the enumeration [UTargetSyntax] is declared in
    writesrc.h, which is not among the sources; it selects between two
    mutually exclusive conventions, the source-array syntax (C code) and the
    structured-config syntax (TOML).  A variable of the enumeration can hold
    a value that is none of its enumerators; [raw] is that value. *)
Inductive UTargetSyntax : Type :=
| UPRV_TARGET_SYNTAX_CCODE
| UPRV_TARGET_SYNTAX_TOML
| UPRV_TARGET_SYNTAX_other (raw : Z).

Definition is_CCODE (syntax : UTargetSyntax) : bool :=
  match syntax with UPRV_TARGET_SYNTAX_CCODE => true | _ => false end.

Definition is_TOML (syntax : UTargetSyntax) : bool :=
  match syntax with UPRV_TARGET_SYNTAX_TOML => true | _ => false end.

(** Modelled from the spec: the value width tags are declared in
    unicode/ucptrie.h, which is not among the sources; a tag stands for one
    of the three widths 16, 32 and 8 bits, and any other value of the field
    is an unrecognized tag.  The numbers are the enumerators in their order
    of declaration. *)
Definition UCPTRIE_VALUE_BITS_16 : Z := 0.
Definition UCPTRIE_VALUE_BITS_32 : Z := 1.
Definition UCPTRIE_VALUE_BITS_8 : Z := 2.

(** Modelled from the spec: [struct UCPTrie] is declared in
    unicode/ucptrie.h, which is not among the sources; an index array, one
    data array, and the scalar fields index length, data length, high start
    and its shifted form, type, value width, the null offsets and the null
    value.  [data] is the array behind [data.ptr0]. *)
Record UCPTrie : Type := mkUCPTrie {
  index : list Z;
  data : list Z;
  indexLength : Z;
  dataLength : Z;
  highStart : Z;
  shifted12HighStart : Z;
  type : Z;
  valueWidth : Z;
  index3NullOffset : Z;
  dataNullOffset : Z;
  nullValue : Z
}.

Definition UCPTrie_width (pTrie : UCPTrie) : Z :=
  if valueWidth pTrie =? UCPTRIE_VALUE_BITS_16 then 16
  else if valueWidth pTrie =? UCPTRIE_VALUE_BITS_32 then 32
  else if valueWidth pTrie =? UCPTRIE_VALUE_BITS_8 then 8
  else 0.

Definition usrc_writeUCPTrieArrays (io : stdio)
  (indexPrefix dataPrefix : option string) (pTrie : UCPTrie)
  (postfix : option string) (syntax : UTargetSyntax) : stdio :=
  let indent := if is_TOML syntax then "  " else EmptyString in
  let io := usrc_writeArray io indexPrefix (index pTrie) 16 (indexLength pTrie)
                            indent postfix in
  let width := UCPTrie_width pTrie in
  usrc_writeArray io dataPrefix (data pTrie) width (dataLength pTrie)
                  indent postfix.

Definition UCPTrieStruct_pattern (syntax : UTargetSyntax) : string :=
  if is_CCODE syntax then
    "    %ld, %ld," ++ LF ++
    "    0x%lx, 0x%x," ++ LF ++
    "    %d, %d," ++ LF ++
    "    0, 0," ++ LF ++
    "    0x%x, 0x%lx," ++ LF ++
    "    0x%lx," ++ LF
  else
    "indexLength = %ld" ++ LF ++
    "dataLength = %ld" ++ LF ++
    "highStart = 0x%lx" ++ LF ++
    "shifted12HighStart = 0x%x" ++ LF ++
    "type = %d" ++ LF ++
    "valueWidth = %d" ++ LF ++
    "index3NullOffset = 0x%x" ++ LF ++
    "dataNullOffset = 0x%lx" ++ LF ++
    "nullValue = 0x%lx" ++ LF.

Definition UCPTrieStruct_args (pTrie : UCPTrie) : list arg :=
  [Int (indexLength pTrie); Int (dataLength pTrie);
   Int (highStart pTrie); Int (shifted12HighStart pTrie);
   Int (type pTrie); Int (valueWidth pTrie);
   Int (index3NullOffset pTrie); Int (dataNullOffset pTrie);
   Int (nullValue pTrie)].

Definition usrc_writeUCPTrieStruct (io : stdio) (prefix : option string)
  (pTrie : UCPTrie) (indexName dataName : string) (postfix : option string)
  (syntax : UTargetSyntax) : stdio :=
  let io := fputs_opt prefix io in
  let io :=
    if is_CCODE syntax then
      fprintf ("    %s," ++ LF ++ "    { %s }," ++ LF)
              [Str indexName; Str dataName] io
    else io in
  let pattern := UCPTrieStruct_pattern syntax in
  let io := fprintf pattern (UCPTrieStruct_args pTrie) io in
  fputs_opt postfix io.

(** Modelled from the spec: the macro [UPRV_UNREACHABLE_EXIT] is defined in
    uassert.h, which is not among the sources; it is the fatal path of a
    precondition violation, [abort()]. *)
Definition UPRV_UNREACHABLE_EXIT (io : stdio) : outcome := Aborted io.

Definition usrc_writeUCPTrie (io : stdio) (name : string) (pTrie : UCPTrie)
  (syntax : UTargetSyntax) : outcome :=
  let width := UCPTrie_width pTrie in
  match
    match syntax with
    | UPRV_TARGET_SYNTAX_CCODE =>
      Some (snprintf 100 ("static const uint16_t %s_trieIndex[%%ld]={" ++ LF)
                     [Str name],
            snprintf 100 ("static const uint%d_t %s_trieData[%%ld]={" ++ LF)
                     [Int width; Str name],
            snprintf 100 (LF ++ "};" ++ LF ++ LF) [])
    | UPRV_TARGET_SYNTAX_TOML =>
      Some (snprintf 100 ("index = [" ++ LF ++ "  ") [],
            snprintf 100 ("data_%d = [" ++ LF ++ "  ") [Int width],
            snprintf 100 (LF ++ "]" ++ LF) [])
    | UPRV_TARGET_SYNTAX_other _ => None
    end
  with
  | None => UPRV_UNREACHABLE_EXIT io
  | Some (line, line2, line3) =>
    let io := usrc_writeUCPTrieArrays io (Some line) (Some line2) pTrie
                                      (Some line3) syntax in
    match
      match syntax with
      | UPRV_TARGET_SYNTAX_CCODE =>
        Some (snprintf 100 ("static const UCPTrie %s_trie={" ++ LF) [Str name],
              snprintf 100 "%s_trieIndex" [Str name],
              snprintf 100 "%s_trieData" [Str name],
              snprintf 100 ("};" ++ LF ++ LF) [])
      | UPRV_TARGET_SYNTAX_TOML =>
        Some (EmptyString, EmptyString, EmptyString, EmptyString)
      | UPRV_TARGET_SYNTAX_other _ => None
      end
    with
    | None => UPRV_UNREACHABLE_EXIT io
    | Some (line, line2, line3, line4) =>
      Returned (usrc_writeUCPTrieStruct io (Some line) pTrie line2 line3
                                        (Some line4) syntax)
    end
  end.

(** ** usrc_writeArrayOfMostlyInvChars *)

Record chars_loop : Type := mkCharsLoop {
  c_i : Z; c_col : Z; c_prev2 : Z; c_prev : Z; c_io : stdio
}.

(** The test that breaks the line before the byte [c]. *)
Definition usrc_writeArrayOfMostlyInvChars_break (col prev2 prev c : Z) : bool :=
  (32 <=? col) ||
  ((24 <=? col) && (0x20 <=? prev2) && (prev =? 0)) ||
  ((16 <=? col) && ((prev =? 0) || (0x20 <=? prev)) && (0 <? c) && (c <? 0x20)).

Definition usrc_writeArrayOfMostlyInvChars_separator
  (i col prev2 prev c : Z) (io : stdio) : stdio * Z :=
  if 0 <? i then
    if usrc_writeArrayOfMostlyInvChars_break col prev2 prev c
    then (fputs ("," ++ LF) io, 0)
    else (fputc "," io, col)
  else (io, col).

Definition usrc_writeArrayOfMostlyInvChars_body (p : list Z) (s : chars_loop)
  : chars_loop :=
  let i := c_i s in
  let prev := c_prev s in
  let c := to_unsigned 8 (element p i) in
  let '(io, col) :=
    usrc_writeArrayOfMostlyInvChars_separator i (c_col s) (c_prev2 s) prev c
                                              (c_io s) in
  let io := fprintf (if c <? 0x20 then "%u" else "'%c'") [Int c] io in
  mkCharsLoop (i + 1) (col + 1) prev c io.

Definition usrc_writeArrayOfMostlyInvChars_loop (p : list Z) (n : nat)
  (io : stdio) : chars_loop :=
  for_loop n (usrc_writeArrayOfMostlyInvChars_body p)
           (mkCharsLoop 0 0 (-1) (-1) io).

Definition usrc_writeArrayOfMostlyInvChars (io : stdio)
  (prefix : option string) (p : list Z) (length : Z) (postfix : option string)
  : stdio :=
  let io := fprintf_opt prefix [Int length] io in
  let io := c_io (usrc_writeArrayOfMostlyInvChars_loop p (Z.to_nat length) io) in
  fputs_opt postfix io.

(** ** UTF-16 *)

(** Modelled from the spec: [U16_NEXT] of unicode/utf16.h, which is not
    among the sources; code points are decoded left to right with surrogate
    pairs handled per standard UTF-16 decoding, and an unpaired surrogate is
    returned as it is. *)
Definition U16_IS_LEAD (c : Z) : bool := Z.land c 0xfffffc00 =? 0xd800.
Definition U16_IS_TRAIL (c : Z) : bool := Z.land c 0xfffffc00 =? 0xdc00.
Definition U16_SURROGATE_OFFSET : Z := Z.shiftl 0xd800 10 + 0xdc00 - 0x10000.
Definition U16_GET_SUPPLEMENTARY (lead trail : Z) : Z :=
  Z.shiftl lead 10 + trail - U16_SURROGATE_OFFSET.

(** The code points [U16_NEXT] returns over the code units [s]. *)
Fixpoint U16_decode (s : list Z) : list Z :=
  match s with
  | [] => []
  | c :: r =>
    match r with
    | c2 :: r' =>
      if U16_IS_LEAD (to_unsigned 16 c) && U16_IS_TRAIL (to_unsigned 16 c2)
      then U16_GET_SUPPLEMENTARY (to_unsigned 16 c) (to_unsigned 16 c2)
           :: U16_decode r'
      else to_unsigned 16 c :: U16_decode r
    | [] => [to_unsigned 16 c]
    end
  end.

(** An instance of the two delegates of the string escaper, for examples:
    the printable code points are U+0020..U+007E, and the escape is a
    backslash, [u] and four hexadecimal digits, or [U] and eight of them
    above U+FFFF. *)
Definition DIGITS : string := "0123456789ABCDEF".

Definition digit (c shift : Z) : string :=
  substring (Z.to_nat (Z.land (Z.shiftr c shift) 0xF)) 1 DIGITS.

Definition ascii_isUnprintable (c : Z) : bool :=
  negb ((0x20 <=? c) && (c <=? 0x7E)).

Definition ascii_escapeUnprintable (c : Z) : string :=
  BACKSLASH ++
  (if Z.land c (Z.lnot 0xFFFF) =? 0 then "u"
   else "U" ++ digit c 28 ++ digit c 24 ++ digit c 20 ++ digit c 16) ++
  digit c 12 ++ digit c 8 ++ digit c 4 ++ digit c 0.

(** A code point map with two ranges, for examples: 0 on U+0000..U+007F and
    1 on U+0080..U+10FFFF. *)
Definition two_ranges (start : Z) : Z * Z :=
  if (0 <=? start) && (start <=? 0x7F) then (0x7F, 0)
  else if (0x80 <=? start) && (start <=? 0x10FFFF) then (0x10FFFF, 1)
  else (-1, 0).

Definition stdio0 : stdio := mkStdio EmptyString EmptyString.

(** ** The serializers that assert, and the string escaper *)

Section Serializers.

(** Whether [U_ASSERT] is compiled in ([U_DEBUG]), and the two delegates of
    the string escaper, [ICU_Utility::isUnprintable] and
    [ICU_Utility::escapeUnprintable]; the latter as the UTF-8 text of what
    it appends for a code point. *)
Variable U_DEBUG : bool.
Variable isUnprintable : Z -> bool.
Variable escapeUnprintable : Z -> string.

(** Modelled from the spec: the macro [U_ASSERT] is defined in uassert.h,
    which is not among the sources; a violated contract is asserted, not
    recovered, where assertions are compiled in. *)
Definition U_ASSERT (cond : bool) (io : stdio) : outcome :=
  if U_DEBUG && negb cond then Aborted io else Returned io.

(** [char s[2] = {static_cast<char>(cp), 0}] as a C string: empty when the
    character is NUL. *)
Definition char_string (cp : Z) : string :=
  let c := to_unsigned 8 cp in
  if c =? 0 then EmptyString else String (ascii_of_N (Z.to_N c)) EmptyString.

(** The body of the loop of [usrc_writeStringAsASCII], after [U16_NEXT]. *)
Definition usrc_writeStringAsASCII_cp (cp : Z) (io : stdio) : outcome :=
  if cp =? 0x22 then
    Returned (fprintf (BACKSLASH ++ DQUOTE) [] io)
  else if isUnprintable cp then
    Returned (fprintf "%s" [Str (escapeUnprintable cp)] io)
  else
    do io <- U_ASSERT (cp <? 0x80) io;
    Returned (fprintf "%s" [Str (char_string cp)] io).

(** The loop [while (i < length)], over the code units from [i] on. *)
Fixpoint usrc_writeStringAsASCII_loop (s : list Z) (io : stdio) : outcome :=
  match s with
  | [] => Returned io
  | c :: r =>
    match r with
    | c2 :: r' =>
      if U16_IS_LEAD (to_unsigned 16 c) && U16_IS_TRAIL (to_unsigned 16 c2)
      then
        do io <- usrc_writeStringAsASCII_cp
                   (U16_GET_SUPPLEMENTARY (to_unsigned 16 c) (to_unsigned 16 c2))
                   io;
        usrc_writeStringAsASCII_loop r' io
      else
        do io <- usrc_writeStringAsASCII_cp (to_unsigned 16 c) io;
        usrc_writeStringAsASCII_loop r io
    | [] =>
      do io <- usrc_writeStringAsASCII_cp (to_unsigned 16 c) io;
      usrc_writeStringAsASCII_loop r io
    end
  end.

Definition usrc_writeStringAsASCII (io : stdio) (ptr : list Z) (length : Z)
  (syntax : UTargetSyntax) : outcome :=
  let io := fprintf DQUOTE [] io in
  do io <- usrc_writeStringAsASCII_loop (firstn (Z.to_nat length) ptr) io;
  Returned (fprintf DQUOTE [] io).

(** ** usrc_writeUnicodeSet *)

(** What [UnicodeSetIterator::nextRange] moves to: a range of code points or
    a string; a set is the sequence of them the iterator goes through. *)
Inductive set_item : Type :=
| set_range (start end_ : Z)
| set_string (str : list Z).

Fixpoint usrc_writeUnicodeSet_loop (it : list set_item) (seenFirstString : bool)
  (syntax : UTargetSyntax) (io : stdio) : outcome :=
  match it with
  | [] => Returned io
  | set_string str :: it =>
    let io :=
      if negb seenFirstString
      then fprintf ("]" ++ LF ++ "strings = [" ++ LF) [] io
      else io in
    let io := fprintf "  " [] io in
    do io <- usrc_writeStringAsASCII io str (Z.of_nat (List.length str)) syntax;
    let io := fprintf ("," ++ LF) [] io in
    usrc_writeUnicodeSet_loop it true syntax io
  | set_range start end_ :: it =>
    do io <- U_ASSERT (negb seenFirstString) io;
    let io := fprintf ("  [0x%x, 0x%x]," ++ LF) [Int start; Int end_] io in
    usrc_writeUnicodeSet_loop it seenFirstString syntax io
  end.

Definition usrc_writeUnicodeSet (io : stdio) (pSet : list set_item)
  (syntax : UTargetSyntax) : outcome :=
  do io <- U_ASSERT (is_TOML syntax) io;
  let io := fprintf ("# Inclusive ranges of the code points in the set." ++ LF)
                    [] io in
  let io := fprintf ("ranges = [" ++ LF) [] io in
  do io <- usrc_writeUnicodeSet_loop pSet false syntax io;
  Returned (fprintf ("]" ++ LF) [] io).

(** ** usrc_writeUCPMap *)

(** A code point map as [ucpmap_getRange] shows it: for a start code point,
    the end of the range that starts there and the value of the range; the
    end is negative when there is no range. *)
Definition UCPMap : Type := Z -> Z * Z.

Definition ucpmap_getRange (pMap : UCPMap) (start : Z) : Z * Z := pMap start.

(** The loop [while ((end = ucpmap_getRange(...)) >= 0)]; [None] when it has
    not ended after [fuel] tests. *)
Fixpoint usrc_writeUCPMap_loop (fuel : nat) (pMap : UCPMap)
  (valueNameGetter : option (Z -> string)) (start : Z) (io : stdio)
  : option stdio :=
  match fuel with
  | O => None
  | S fuel =>
    let '(end_, value) := ucpmap_getRange pMap start in
    if 0 <=? end_ then
      let io :=
        match valueNameGetter with
        | Some getName =>
          let name := getName value in
          fprintf ("  {a=0x%x, b=0x%x, v=%u, name=" ++ DQUOTE ++ "%s" ++ DQUOTE
                   ++ "}," ++ LF)
                  [Int start; Int end_; Int value; Str name] io
        | None =>
          fprintf ("  {a=0x%x, b=0x%x, v=%u}," ++ LF)
                  [Int start; Int end_; Int value] io
        end in
      usrc_writeUCPMap_loop fuel pMap valueNameGetter (end_ + 1) io
    else Some io
  end.

Definition usrc_writeUCPMap (fuel : nat) (io : stdio) (pMap : UCPMap)
  (valueNameGetter : option (Z -> string)) (syntax : UTargetSyntax)
  : option outcome :=
  match U_ASSERT (is_TOML syntax) io with
  | Aborted io => Some (Aborted io)
  | Returned io =>
    let start := 0 in
    let io :=
      fprintf ("# Code points `a` through `b` have value `v`, corresponding to `name`."
               ++ LF) [] io in
    let io := fprintf ("ranges = [" ++ LF) [] io in
    match usrc_writeUCPMap_loop fuel pMap valueNameGetter start io with
    | Some io => Some (Returned (fprintf ("]" ++ LF) [] io))
    | None => None
    end
  end.

End Serializers.

(** * Notions the properties are stated with *)

(** A character that no numeral contains: not a digit, not a letter, not
    the sign. *)
Definition not_numeral_char (c : ascii) : Prop :=
  (N_of_ascii c < 45 \/ 45 < N_of_ascii c < 48 \/ 57 < N_of_ascii c < 97
   \/ 102 < N_of_ascii c)%N.

(** The text of an optional prefix or postfix: nothing for [nullptr]. *)
Definition opt_text (s : option string) : string :=
  match s with
  | Some s => s
  | None => EmptyString
  end.

(** The plain decimal digit of a value from 0 to 9: one character. *)
Definition decimal_digit (v : Z) : string :=
  String (ascii_of_N (Z.to_N (48 + v))) EmptyString.

(** The line the array writer reports an unrecognized width with. *)
Definition unrecognized_width_message (width : Z) : string :=
  "usrc_writeArray(width=" ++ dec (to_signed LONG_BITS width)
  ++ ") unrecognized width" ++ LF.

(** The nine scalar fields of a trie in the order the specification lists
    them, each as its conversion writes it: indexLength, dataLength,
    highStart, shifted12HighStart, type, valueWidth, index3NullOffset,
    dataNullOffset, nullValue. *)
Definition scalar_fields (pTrie : UCPTrie) : list string :=
  [dec (to_signed LONG_BITS (indexLength pTrie));
   dec (to_signed LONG_BITS (dataLength pTrie));
   hex (to_unsigned LONG_BITS (highStart pTrie));
   hex (to_unsigned INT_BITS (shifted12HighStart pTrie));
   dec (to_signed INT_BITS (type pTrie));
   dec (to_signed INT_BITS (valueWidth pTrie));
   hex (to_unsigned INT_BITS (index3NullOffset pTrie));
   hex (to_unsigned LONG_BITS (dataNullOffset pTrie));
   hex (to_unsigned LONG_BITS (nullValue pTrie))].

(** The framing of the nine fields in the C syntax: an initializer list. *)
Definition C_framing (fields : list string) : string :=
  match fields with
  | [v1; v2; v3; v4; v5; v6; v7; v8; v9] =>
    "    " ++ v1 ++ ", " ++ v2 ++ "," ++ LF ++
    "    0x" ++ v3 ++ ", 0x" ++ v4 ++ "," ++ LF ++
    "    " ++ v5 ++ ", " ++ v6 ++ "," ++ LF ++
    "    0, 0," ++ LF ++
    "    0x" ++ v7 ++ ", 0x" ++ v8 ++ "," ++ LF ++
    "    0x" ++ v9 ++ "," ++ LF
  | _ => EmptyString
  end.

(** The framing of the nine fields in the TOML syntax: [key = value] lines. *)
Definition TOML_framing (fields : list string) : string :=
  match fields with
  | [v1; v2; v3; v4; v5; v6; v7; v8; v9] =>
    "indexLength = " ++ v1 ++ LF ++
    "dataLength = " ++ v2 ++ LF ++
    "highStart = 0x" ++ v3 ++ LF ++
    "shifted12HighStart = 0x" ++ v4 ++ LF ++
    "type = " ++ v5 ++ LF ++
    "valueWidth = " ++ v6 ++ LF ++
    "index3NullOffset = 0x" ++ v7 ++ LF ++
    "dataNullOffset = 0x" ++ v8 ++ LF ++
    "nullValue = 0x" ++ v9 ++ LF
  | _ => EmptyString
  end.

(** The byte [(uint8_t)p[i]]. *)
Definition byte (p : list Z) (i : Z) : Z := to_unsigned 8 (element p i).

(** The byte [n] places before the byte [k], and [-1] where there is none. *)
Definition byte_before (p : list Z) (k n : Z) : Z :=
  if n <=? k then byte p (k - n) else -1.

(** The layout as the specification words it.  A byte is printable when
    the writer renders it as a character literal. *)
Definition printable (b : Z) : bool := 0x20 <=? b.

(** The three rules in their order of priority: [fill] is the number of
    elements the current line has accumulated. *)
Definition line_break_rule (fill before_previous previous current : Z) : bool :=
  if 32 <=? fill then true
  else if (24 <=? fill) && (previous =? 0) && printable before_previous then true
  else if (16 <=? fill) && ((1 <=? current) && (current <=? 31))
          && ((previous =? 0) || printable previous) then true
  else false.

(** The number of elements on the current line when the element [k] is to
    be written: a line break before an element starts a line anew. *)
Fixpoint line_fill (p : list Z) (k : nat) : Z :=
  match k with
  | O => 0
  | S k' =>
    let i := Z.of_nat k' in
    if (0 <? i)
       && line_break_rule (line_fill p k') (byte_before p i 2)
                          (byte_before p i 1) (byte p i)
    then 1
    else line_fill p k' + 1
  end.

(** Whether the text has a double quote that no backslash precedes;
    [escaped] tells whether a backslash precedes the text. *)
Fixpoint bare_quote (escaped : bool) (s : string) : bool :=
  match s with
  | EmptyString => false
  | String a r =>
    (Ascii.eqb a "034" && negb escaped) || bare_quote (Ascii.eqb a "092") r
  end.

(** The code units as characters, one for one. *)
Definition units_text (s : list Z) : string :=
  flatten (map (fun c => String (ascii_of_N (Z.to_N c)) EmptyString) s).

Section EscaperText.

Variable isUnprintable : Z -> bool.
Variable escapeUnprintable : Z -> string.

(** What the escaper writes for a code point. *)
Definition code_point_text (cp : Z) : string :=
  if cp =? 0x22 then BACKSLASH ++ DQUOTE
  else if isUnprintable cp then escapeUnprintable cp
  else char_string cp.

(** The text between the two quotes: the code points in their order. *)
Definition string_text (s : list Z) : string :=
  flatten (map code_point_text (U16_decode s)).

End EscaperText.

(** A range [(start, end)] as the iterator shows it. *)
Definition range_item (r : Z * Z) : set_item := set_range (fst r) (snd r).

(** A range as a pair of hexadecimal numbers, on a line of the list. *)
Definition range_text (r : Z * Z) : string :=
  "  [0x" ++ hex (to_unsigned INT_BITS (fst r)) ++ ", 0x"
  ++ hex (to_unsigned INT_BITS (snd r)) ++ "]," ++ LF.

(** A string as the literal the escaper writes, on a line of the list. *)
Definition string_entry (isUnprintable : Z -> bool)
  (escapeUnprintable : Z -> string) (s : list Z) : string :=
  "  " ++ (DQUOTE ++ string_text isUnprintable escapeUnprintable s ++ DQUOTE)
  ++ "," ++ LF.

(** The comment line a set begins with, and what closes the [ranges] list
    and opens the [strings] list. *)
Definition set_header : string :=
  "# Inclusive ranges of the code points in the set." ++ LF.

Definition strings_opener : string := "]" ++ LF ++ "strings = [" ++ LF.

(** An entry [(a, b, v)] of the list, with the name when there is a getter. *)
Definition entry_text (valueNameGetter : option (Z -> string))
  (e : Z * Z * Z) : string :=
  let '(a, b, v) := e in
  "  {a=0x" ++ hex (to_unsigned INT_BITS a)
  ++ ", b=0x" ++ hex (to_unsigned INT_BITS b)
  ++ ", v=" ++ dec (to_unsigned INT_BITS v)
  ++ match valueNameGetter with
     | Some getName => ", name=" ++ DQUOTE ++ getName v ++ DQUOTE ++ "}," ++ LF
     | None => "}," ++ LF
     end.

(** The comment line a map begins with. *)
Definition map_header : string :=
  "# Code points `a` through `b` have value `v`, corresponding to `name`."
  ++ LF.

(** The entries go from [start] to [last] with no gap and no overlap: each
    begins where the one before ended, plus one. *)
Fixpoint range_cover (start : Z) (entries : list (Z * Z * Z)) (last : Z) : Prop :=
  match entries with
  | [] => start = last + 1
  | (a, b, _) :: entries => a = start /\ a <= b /\ range_cover (b + 1) entries last
  end.

(** The number of entries whose range holds the code point [c]. *)
Fixpoint covering (c : Z) (entries : list (Z * Z * Z)) : Z :=
  match entries with
  | [] => 0
  | (a, b, _) :: entries =>
    (if (a <=? c) && (c <=? b) then 1 else 0) + covering c entries
  end.

(** A trie of 32-bit values, for examples. *)
Definition example_trie : UCPTrie :=
  mkUCPTrie [1; 2; 300] [5; 6; 70000] 3 3 0x110000 0x110 0
            UCPTRIE_VALUE_BITS_32 0x7fff 0xfffff 0xffffffff.

(** A trie whose value width tag is none of the three. *)
Definition example_trie_bad_width : UCPTrie :=
  mkUCPTrie [1; 2; 300] [5; 6; 70000] 3 3 0x110000 0x110 0 7 0x7fff 0xfffff
            0xffffffff.

(** Sixteen letters, then a control byte. *)
Definition example_bytes : list Z := repeat 97 16 ++ [1; 98].

(** * The rest of the file *)

From Stdlib Require DecimalPos DecimalZ HexadecimalPos HexadecimalN.

(** ** usrc_writeCopyrightHeader and usrc_writeFileNameGeneratedBy *)

Definition usrc_writeCopyrightHeader (io : stdio) (prefix : string)
  (copyrightYear : Z) : stdio :=
  let io :=
    fprintf ("%s Copyright (C) %d and later: Unicode, Inc. and others." ++ LF ++
             "%s License & terms of use: http://www.unicode.org/copyright.html"
             ++ LF)
            [Str prefix; Int copyrightYear; Str prefix] io in
  if copyrightYear <=? 2016 then
    fprintf ("%s Copyright (C) 1999-2016, International Business Machines" ++ LF ++
             "%s Corporation and others.  All Rights Reserved." ++ LF)
            [Str prefix; Str prefix] io
  else io.

(** [today] is what [strftime(buffer, sizeof(buffer), "%Y-%m-%d", lt)] puts
    in the buffer for the local time of the call. *)
Definition usrc_writeFileNameGeneratedBy (today : string) (io : stdio)
  (prefix filename : string) (generator : option string) : stdio :=
  let pattern :=
    "%s" ++ LF ++
    "%s file name: %s" ++ LF ++
    "%s" ++ LF ++
    "%s machine-generated by: %s" ++ LF ++
    LF in
  match generator with
  | None =>
    let buffer := today in
    fprintf pattern
            [Str prefix; Str prefix; Str filename; Str prefix; Str prefix;
             Str buffer] io
  | Some generator =>
    fprintf pattern
            [Str prefix; Str prefix; Str filename; Str prefix; Str prefix;
             Str generator] io
  end.

(** ** usrc_create and usrc_createTextData *)

(** What [usrc_createWithoutHeader] returns: the file it opened, with the
    name it was opened under and the two streams ([f] is the new file,
    empty), or [nullptr], with what [stderr] holds. *)
Inductive created : Type :=
| opened (name : string) (io : stdio)
| nullptr (err : string).

(** The last character of a string that is not empty. *)
Fixpoint last_char (c : ascii) (s : string) : ascii :=
  match s with
  | EmptyString => c
  | String d r => last_char d r
  end.

Section Create.

(** Modelled from the spec: [U_FILE_SEP_CHAR] and [U_FILE_ALT_SEP_CHAR] are
    defined in unicode/putil.h, which is not among the sources; file
    creation and path handling belong to the platform, and the two
    characters are its path separators. *)
Variable U_FILE_SEP_CHAR : ascii.
Variable U_FILE_ALT_SEP_CHAR : ascii.

(** Whether [fopen(p, "w")] opens the file [p]. *)
Variable fopen : string -> bool.

(** The date of the call, as under [usrc_writeFileNameGeneratedBy]. *)
Variable today : string.

(** The name [p] that is opened.  [buffer] has 1024 characters: a
    [uprv_strcpy] that writes past it is undefined, [None] here. *)
Definition usrc_createWithoutHeader_p (path : option string)
  (filename : string) : option string :=
  match path with
  | None => Some filename
  | Some path =>
    if (1024 <? Z.of_nat (String.length path) + 1)%Z then None
    else
      let q := Z.of_nat (String.length path) in
      let '(buffer, q) :=
        match path with
        | String c r =>
          if negb (Ascii.eqb (last_char c r) U_FILE_SEP_CHAR)
             && negb (Ascii.eqb (last_char c r) U_FILE_ALT_SEP_CHAR)
          then (path ++ String U_FILE_SEP_CHAR EmptyString, q + 1)
          else (path, q)
        | EmptyString => (path, q)
        end in
      if 1024 <? q + Z.of_nat (String.length filename) + 1 then None
      else Some (buffer ++ filename)
  end.

Definition usrc_createWithoutHeader (err : string) (path : option string)
  (filename : string) : option created :=
  match usrc_createWithoutHeader_p path filename with
  | None => None
  | Some p =>
    if fopen p then Some (opened p (mkStdio EmptyString err))
    else
      Some (nullptr
              (err ++ sprintf ("usrc_create(%s, %s): unable to create file" ++ LF)
                              [Str (opt_text path); Str filename]))
  end.

Definition usrc_create (err : string) (path : option string)
  (filename : string) (copyrightYear : Z) (generator : option string)
  : option created :=
  match usrc_createWithoutHeader err path filename with
  | None => None
  | Some (nullptr err) => Some (nullptr err)
  | Some (opened p io) =>
    let io := usrc_writeCopyrightHeader io "//" copyrightYear in
    let io := usrc_writeFileNameGeneratedBy today io "//" filename generator in
    Some (opened p io)
  end.

Definition usrc_createTextData (err : string) (path : option string)
  (filename : string) (copyrightYear : Z) (generator : option string)
  : option created :=
  match usrc_createWithoutHeader err path filename with
  | None => None
  | Some (nullptr err) => Some (nullptr err)
  | Some (opened p io) =>
    let io := usrc_writeCopyrightHeader io "#" copyrightYear in
    let io := usrc_writeFileNameGeneratedBy today io "#" filename generator in
    Some (opened p io)
  end.

End Create.

(** ** usrc_writeUTrie2Arrays *)

(** Modelled from the spec: [struct UTrie2] is declared in utrie2.h, which
    is not among the sources; an index array of 16-bit units, with the data
    packed after the index when the data is 16 bits wide, or a separate
    array of 32-bit data, selected by whether the 32-bit data pointer is
    present, and the two lengths.  These are the fields
    [usrc_writeUTrie2Arrays] reads. *)
Record UTrie2 : Type := mkUTrie2 {
  trie2_index : list Z;
  trie2_data32 : option (list Z);
  trie2_indexLength : Z;
  trie2_dataLength : Z
}.

Definition usrc_writeUTrie2Arrays (io : stdio)
  (indexPrefix data32Prefix : option string) (pTrie : UTrie2)
  (postfix : option string) : stdio :=
  match trie2_data32 pTrie with
  | None =>
    usrc_writeArray io indexPrefix (trie2_index pTrie) 16
                    (trie2_indexLength pTrie + trie2_dataLength pTrie)
                    EmptyString postfix
  | Some data32 =>
    let io := usrc_writeArray io indexPrefix (trie2_index pTrie) 16
                              (trie2_indexLength pTrie) EmptyString postfix in
    usrc_writeArray io data32Prefix data32 32 (trie2_dataLength pTrie)
                    EmptyString postfix
  end.

(** * More notions *)

(** The separator before the element [k] of a numeric array, and the
    element as a literal. *)
Definition array_separator_text (indent : string) (k : Z) : string :=
  if k =? 0 then EmptyString
  else if k mod 16 =? 0 then "," ++ LF ++ indent
  else ",".

Definition array_element_text (p : list Z) (width k : Z) : string :=
  let value := usrc_writeArray_value p width k in
  if value <? 0 then String "-" (dec (- value))
  else if value <=? 9 then decimal_digit value
  else "0x" ++ hex value.

Definition array_body_text (p : list Z) (width : Z) (indent : string)
  (n : nat) : string :=
  flatten (map (fun k => array_separator_text indent (Z.of_nat k)
                         ++ array_element_text p width (Z.of_nat k))
               (seq 0 n)).

(** The number a literal of the numeric array writer stands for: a
    hexadecimal number after [0x], a decimal number with its sign
    otherwise. *)
Definition literal_value (s : string) : option Z :=
  match s with
  | String "0" (String "x" r) =>
    option_map (fun u => Z.of_N (N.of_hex_uint u))
               (HexadecimalString.NilZero.uint_of_string r)
  | _ => option_map Z.of_int (DecimalString.NilZero.int_of_string s)
  end.

(** Whether every character of a text is ASCII. *)
Fixpoint all_ascii (s : string) : bool :=
  match s with
  | EmptyString => true
  | String a r => (N_of_ascii a <? 128)%N && all_ascii r
  end.

(** Whether every line of a text is empty or begins with [prefix];
    [at_start] tells whether the text begins a line. *)
Fixpoint comment_lines (prefix : string) (at_start : bool) (s : string) : bool :=
  match s with
  | EmptyString => true
  | String c r =>
    if Ascii.eqb c "010" then comment_lines prefix true r
    else (negb at_start || String.prefix prefix s) && comment_lines prefix false r
  end.

(** The entries follow one another: the first begins at [start], each next
    one right after the end of the one before; [linked_next] is where the
    entry after the last would begin. *)
Fixpoint linked (start : Z) (entries : list (Z * Z * Z)) : Prop :=
  match entries with
  | [] => True
  | (a, b, _) :: entries => a = start /\ 0 <= b /\ linked (b + 1) entries
  end.

Fixpoint linked_next (start : Z) (entries : list (Z * Z * Z)) : Z :=
  match entries with
  | [] => start
  | (_, b, _) :: entries => linked_next (b + 1) entries
  end.

(** A map whose range query never signals the end, for examples. *)
Definition endless_map (start : Z) : Z * Z := (0x10, 7).

(** A trie of the first kind with 16-bit data after the index. *)
Definition example_trie2 : UTrie2 := mkUTrie2 [1; 2; 300; 4; 5] None 3 2.

(** What [fprintf(f, prefix, (long)length)] writes for an optional prefix. *)
Definition prefix_text (prefix : option string) (length : Z) : string :=
  match prefix with
  | Some prefix => sprintf prefix [Int length]
  | None => EmptyString
  end.

(** What [usrc_writeCopyrightHeader] and [usrc_writeFileNameGeneratedBy]
    write, line by line; [who] is the generator, or the date. *)
Definition copyright_text (prefix : string) (copyrightYear : Z) : string :=
  prefix ++ " Copyright (C) " ++ dec (to_signed INT_BITS copyrightYear)
  ++ " and later: Unicode, Inc. and others." ++ LF
  ++ prefix ++ " License & terms of use: http://www.unicode.org/copyright.html"
  ++ LF
  ++ (if copyrightYear <=? 2016 then
        prefix ++ " Copyright (C) 1999-2016, International Business Machines"
        ++ LF
        ++ prefix ++ " Corporation and others.  All Rights Reserved." ++ LF
      else EmptyString).

Definition generated_by_text (prefix filename who : string) : string :=
  prefix ++ LF
  ++ prefix ++ " file name: " ++ filename ++ LF
  ++ prefix ++ LF
  ++ prefix ++ " machine-generated by: " ++ who ++ LF
  ++ LF.

(** A platform for examples: the slash as both separators, every file but
    those under [/ro/] can be opened, and a date. *)
Definition example_fopen (p : string) : bool := negb (String.prefix "/ro/" p).

Definition example_today : string := "2026-10-30".

(** A classifier that calls the control characters alone unprintable, and
    so lets code points beyond ASCII through, for examples. *)
Definition lax_isUnprintable (c : Z) : bool := c <? 0x20.

(** Thirty-four letters. *)
Definition example_text : list Z := repeat 97 34.

(** What the byte array writer writes for a byte, and the separator it
    writes before the byte [k]: by the layout of the specification a line
    break when the rule fires on the number of elements on the line and on
    the bytes around, a comma otherwise, and nothing before the first. *)
Definition byte_text (c : Z) : string :=
  if c <? 0x20 then dec c
  else "'" ++ String (ascii_of_N (Z.to_N c)) EmptyString ++ "'".

Definition chars_separator_text (p : list Z) (k : nat) : string :=
  let i := Z.of_nat k in
  if 0 <? i then
    if line_break_rule (line_fill p k) (byte_before p i 2) (byte_before p i 1)
                       (byte p i)
    then "," ++ LF
    else ","
  else EmptyString.

Definition chars_body_text (p : list Z) (n : nat) : string :=
  flatten (map (fun k => chars_separator_text p k
                         ++ byte_text (byte p (Z.of_nat k)))
               (seq 0 n)).

(** * Properties *)

(** ** Text *)

Lemma append_nil_r (s : string) : s ++ EmptyString = s.
Proof. induction s; simpl; congruence. Qed.

Lemma append_assoc (a b c : string) : (a ++ b) ++ c = a ++ b ++ c.
Proof. induction a; simpl; congruence. Qed.

Lemma count_char_app (c : ascii) (a b : string) :
  count_char c (a ++ b) = count_char c a + count_char c b.
Proof. induction a; simpl; lia. Qed.

Lemma count_char_nonneg (c : ascii) (s : string) : 0 <= count_char c s.
Proof. induction s; simpl; [lia | destruct (Ascii.eqb a c); lia]. Qed.

Lemma flatten_app (l1 l2 : list string) :
  flatten (l1 ++ l2) = flatten l1 ++ flatten l2.
Proof.
  induction l1; simpl; [reflexivity |].
  now rewrite IHl1, append_assoc.
Qed.

Lemma eqb_numeral_char (c d : ascii) :
  not_numeral_char c ->
  (N_of_ascii d = 45 \/ 48 <= N_of_ascii d <= 57 \/ 97 <= N_of_ascii d <= 102)%N ->
  Ascii.eqb d c = false.
Proof.
  intros Hc Hd. apply Ascii.eqb_neq. intros ->. unfold not_numeral_char in Hc. lia.
Qed.

Lemma count_char_dec_uint (c : ascii) (d : Decimal.uint) :
  not_numeral_char c ->
  count_char c (DecimalString.NilEmpty.string_of_uint d) = 0.
Proof.
  intros Hc.
  induction d; cbn [count_char DecimalString.NilEmpty.string_of_uint]; trivial;
    rewrite IHd, eqb_numeral_char; trivial; vm_compute; intuition congruence.
Qed.

Lemma count_char_dec (c : ascii) (z : Z) :
  not_numeral_char c -> count_char c (dec z) = 0.
Proof.
  intros Hc. unfold dec, DecimalString.NilZero.string_of_int.
  assert (U : forall d, count_char c (DecimalString.NilZero.string_of_uint d) = 0).
  { intros d. destruct d; try apply (count_char_dec_uint c _ Hc).
    cbn [count_char DecimalString.NilZero.string_of_uint].
    rewrite eqb_numeral_char; trivial. vm_compute; intuition congruence. }
  destruct (Z.to_int z); cbn [count_char]; rewrite ?U; trivial.
  rewrite eqb_numeral_char; trivial. vm_compute; intuition congruence.
Qed.

Lemma count_char_hex_uint (c : ascii) (d : Hexadecimal.uint) :
  not_numeral_char c ->
  count_char c (HexadecimalString.NilEmpty.string_of_uint d) = 0.
Proof.
  intros Hc.
  induction d; cbn [count_char HexadecimalString.NilEmpty.string_of_uint]; trivial;
    rewrite IHd, eqb_numeral_char; trivial; vm_compute; intuition congruence.
Qed.

Lemma count_char_hex (c : ascii) (z : Z) :
  not_numeral_char c -> count_char c (hex z) = 0.
Proof.
  intros Hc. unfold hex, HexadecimalString.NilZero.string_of_uint.
  destruct (N.to_hex_uint (Z.to_N z)); try apply (count_char_hex_uint c _ Hc).
  cbn [count_char]. rewrite eqb_numeral_char; trivial.
  vm_compute; intuition congruence.
Qed.

(** ** The numeric array writer *)

(** What [fprintf] writes for an element. *)
Lemma sprintf_array_value (value : Z) :
  sprintf (if value <=? 9 then "%" ++ PRId64 else "0x%" ++ PRIx64) [Int value]
  = if value <=? 9 then dec (to_signed LONG_BITS value)
    else "0x" ++ hex (to_unsigned LONG_BITS value).
Proof.
  destruct (value <=? 9); cbv [sprintf PRId64 PRIx64]; cbn;
    now rewrite append_nil_r.
Qed.

Lemma count_char_array_value (c : ascii) (value : Z) :
  not_numeral_char c -> Ascii.eqb "x" c = false ->
  count_char c
    (sprintf (if value <=? 9 then "%" ++ PRId64 else "0x%" ++ PRIx64) [Int value])
  = 0.
Proof.
  intros Hc Hx. rewrite sprintf_array_value. destruct (value <=? 9).
  - now apply count_char_dec.
  - cbn [append count_char]. rewrite Hx, count_char_hex by trivial.
    rewrite eqb_numeral_char; trivial. vm_compute; intuition congruence.
Qed.

Lemma comma_not_numeral : not_numeral_char ",".
Proof. vm_compute. left. reflexivity. Qed.

Lemma newline_not_numeral : not_numeral_char "010".
Proof. vm_compute. left. reflexivity. Qed.

Lemma for_loop_S {S : Type} (n : nat) (body : S -> S) (s : S) :
  for_loop (Datatypes.S n) body s = body (for_loop n body s).
Proof. reflexivity. Qed.

Lemma usrc_writeArray_loop_S p width indent n io :
  usrc_writeArray_loop p width indent (S n) io
  = usrc_writeArray_body p width indent (usrc_writeArray_loop p width indent n io).
Proof. reflexivity. Qed.

(** The counted loop is the loop of the source: [i] is the number of turns
    made, so the test [i<length] holds before each of the [length] turns and
    fails after the last. *)
Lemma usrc_writeArray_loop_i p width indent io (n : nat) :
  a_i (usrc_writeArray_loop p width indent n io) = Z.of_nat n.
Proof.
  induction n as [| n IH]; [reflexivity |].
  rewrite usrc_writeArray_loop_S. unfold usrc_writeArray_body.
  destruct (usrc_writeArray_separator _ _ _ _). cbn [a_i]. lia.
Qed.

Lemma usrc_writeArray_loop_test p width indent io (length : Z) (n : nat) :
  (a_i (usrc_writeArray_loop p width indent n io) <? length)
  = (n <? Z.to_nat length)%nat.
Proof.
  rewrite usrc_writeArray_loop_i.
  destruct (Z.ltb_spec (Z.of_nat n) length), (Nat.ltb_spec n (Z.to_nat length));
    trivial; lia.
Qed.

(** The loop variables and the separators written after [n] turns. *)
Lemma usrc_writeArray_loop_invariant p width indent io :
  count_char "," indent = 0 -> count_char "010" indent = 0 ->
  forall n : nat,
    let s := usrc_writeArray_loop p width indent n io in
    let k := Z.of_nat n in
    a_i s = k /\
    a_col s = (if k =? 0 then 0 else (k - 1) mod 16 + 1) /\
    stderr (a_io s) = stderr io /\
    count_char "," (f (a_io s))
      = count_char "," (f io) + (if k =? 0 then 0 else k - 1) /\
    count_char "010" (f (a_io s))
      = count_char "010" (f io) + (if k =? 0 then 0 else (k - 1) / 16).
Proof.
  intros Hi1 Hi2. induction n as [|n IH].
  - cbn. repeat split; lia.
  - cbv zeta in IH |- *. rewrite usrc_writeArray_loop_S.
    destruct IH as (Ei & Ec & Ee & Ecomma & Enl).
    set (s := usrc_writeArray_loop p width indent n io) in *.
    unfold usrc_writeArray_body, usrc_writeArray_separator.
    rewrite Ei, Ec.
    replace (Z.of_nat (S n) =? 0) with false by (symmetry; apply Z.eqb_neq; lia).
    destruct (Z.eqb_spec (Z.of_nat n) 0) as [E0 | E0].
    + rewrite E0. cbn [Z.ltb Z.compare a_i a_col a_io fprintf f stderr].
      rewrite !count_char_app, !count_char_array_value
        by (try apply comma_not_numeral; try apply newline_not_numeral; reflexivity).
      rewrite Ecomma, Enl.
      replace (Z.of_nat (S n)) with 1 by lia.
      repeat split; trivial; try lia; Z.div_mod_to_equations; lia.
    + replace (0 <? Z.of_nat n) with true by (symmetry; apply Z.ltb_lt; lia).
      destruct (Z.ltb_spec ((Z.of_nat n - 1) mod 16 + 1) 16) as [Hc | Hc];
        cbn [a_i a_col a_io fprintf fputc fputs f stderr];
        rewrite !count_char_app, ?count_char_array_value
          by (try apply comma_not_numeral; try apply newline_not_numeral; reflexivity);
        rewrite ?Hi1, ?Hi2, Ecomma, Enl;
        replace (Z.of_nat n =? 0) with false by (symmetry; apply Z.eqb_neq; lia);
        cbn [count_char LF Ascii.eqb Bool.eqb];
        replace (Z.of_nat (S n) - 1) with (Z.of_nat n) by lia;
        repeat split; trivial; try lia;
        Z.div_mod_to_equations; lia.
Qed.

Lemma f_fputs_opt (s : option string) (io : stdio) :
  f (fputs_opt s io) = f io ++ opt_text s.
Proof. destruct s; simpl; [reflexivity | now rewrite append_nil_r]. Qed.

(** C1. For an array of [length > 0] elements of a recognized width, the
    writer adds exactly [ceil(length/16) - 1] line breaks and exactly
    [length - 1] commas to what the prefix and the postfix hold; before
    the element [k] the column is [k mod 16] once the separator is
    written, so it is back to zero after every wrap, a wrap happens before
    the elements [16, 32, ...] only, and nothing is written before the
    first element. *)
Theorem usrc_writeArray_wrap_count
  (io : stdio) (prefix : option string) (p : list Z) (width length : Z)
  (indent : string) (postfix : option string) :
  recognized_width width = true ->
  0 < length ->
  count_char "," indent = 0 ->
  count_char "010" indent = 0 ->
  let io1 := fprintf_opt prefix [Int length] io in
  let out := usrc_writeArray io prefix p width length indent postfix in
  count_char "010" (f out)
    = count_char "010" (f io1) + ((length + 15) / 16 - 1)
      + count_char "010" (opt_text postfix) /\
  count_char "," (f out)
    = count_char "," (f io1) + (length - 1) + count_char "," (opt_text postfix) /\
  forall k : Z, 0 <= k < length ->
    let s := usrc_writeArray_loop p width indent (Z.to_nat k) io1 in
    a_i s = k /\
    usrc_writeArray_separator indent (a_i s) (a_col s) (a_io s)
    = (if k =? 0 then a_io s
       else if k mod 16 =? 0 then fputs indent (fputs ("," ++ LF) (a_io s))
       else fputc "," (a_io s),
       k mod 16).
Proof.
  intros Hw Hlen Hi1 Hi2 io1 out. subst out. unfold usrc_writeArray.
  rewrite Hw. cbn [negb]. fold io1.
  destruct (usrc_writeArray_loop_invariant p width indent io1 Hi1 Hi2
              (Z.to_nat length)) as (_ & _ & _ & Ecomma & Enl).
  rewrite Z2Nat.id in Ecomma, Enl by lia.
  replace (length =? 0) with false in Ecomma, Enl
    by (symmetry; apply Z.eqb_neq; lia).
  rewrite f_fputs_opt, !count_char_app, Ecomma, Enl.
  split; [| split].
  - f_equal. f_equal. Z.div_mod_to_equations; lia.
  - reflexivity.
  - intros k Hk.
    set (s := usrc_writeArray_loop p width indent (Z.to_nat k) io1).
    destruct (usrc_writeArray_loop_invariant p width indent io1 Hi1 Hi2
                (Z.to_nat k)) as (Ei & Ec & _).
    fold s in Ei, Ec. rewrite Z2Nat.id in Ei, Ec by lia.
    split; [exact Ei |].
    unfold usrc_writeArray_separator. rewrite Ei, Ec.
    destruct (Z.eqb_spec k 0) as [-> | Hk0]; [reflexivity |].
    replace (0 <? k) with true by (symmetry; apply Z.ltb_lt; lia).
    destruct (Z.eqb_spec (k mod 16) 0) as [Hm | Hm].
    + replace ((k - 1) mod 16 + 1 <? 16) with false
        by (symmetry; apply Z.ltb_ge; Z.div_mod_to_equations; lia).
      now rewrite Hm.
    + replace ((k - 1) mod 16 + 1 <? 16) with true
        by (symmetry; apply Z.ltb_lt; Z.div_mod_to_equations; lia).
      f_equal. Z.div_mod_to_equations; lia.
Qed.

(** ** Base selection *)

Lemma dec_digit (v : Z) : 0 <= v <= 9 -> dec v = decimal_digit v.
Proof.
  intros H. rewrite <- (Z2Nat.id v) by lia.
  assert (Hk : (Z.to_nat v < 10)%nat) by lia.
  revert Hk. generalize (Z.to_nat v) as k. intros k Hk.
  do 10 (destruct k as [| k]; [reflexivity |]). lia.
Qed.

Lemma dec_negative (v : Z) : v < 0 -> dec v = String "-" (dec (- v)).
Proof. destruct v; try lia. reflexivity. Qed.

Lemma to_signed_64_id (v : Z) :
  - 2 ^ 63 <= v < 2 ^ 63 -> to_signed 64 v = v.
Proof.
  intros H. unfold to_signed.
  change (2 ^ (64 - 1)) with 9223372036854775808.
  change (2 ^ 64) with 18446744073709551616.
  change (2 ^ 63) with 9223372036854775808 in H.
  destruct (Z.ltb_spec (v mod 18446744073709551616) 9223372036854775808);
    Z.div_mod_to_equations; lia.
Qed.

Lemma to_unsigned_id (bits v : Z) :
  0 <= v < 2 ^ bits -> to_unsigned bits v = v.
Proof. intros H. unfold to_unsigned. now apply Z.mod_small. Qed.

Lemma usrc_writeArray_value_range (p : list Z) (width i : Z) :
  let value := usrc_writeArray_value p width i in
  - 2 ^ 63 <= value < 2 ^ 63 /\ (value < 0 -> width = 64).
Proof.
  unfold usrc_writeArray_value, to_unsigned, to_signed.
  change (2 ^ 63) with 9223372036854775808.
  change (2 ^ (64 - 1)) with 9223372036854775808.
  change (2 ^ 64) with 18446744073709551616.
  change (2 ^ 8) with 256. change (2 ^ 16) with 65536.
  change (2 ^ 32) with 4294967296.
  destruct (width =? 8); [Z.div_mod_to_equations; lia |].
  destruct (width =? 16); [Z.div_mod_to_equations; lia |].
  destruct (width =? 32); [Z.div_mod_to_equations; lia |].
  destruct (Z.eqb_spec width 64); [| lia].
  destruct (Z.ltb_spec (element p i mod 18446744073709551616) 9223372036854775808);
    Z.div_mod_to_equations; lia.
Qed.

(** ** Unrecognized widths *)

Lemma recognized_width_false (width : Z) :
  width <> 8 -> width <> 16 -> width <> 32 -> width <> 64 ->
  recognized_width width = false.
Proof.
  intros. unfold recognized_width.
  repeat (rewrite (proj2 (Z.eqb_neq _ _)) by assumption). reflexivity.
Qed.

Lemma usrc_writeArray_unrecognized io prefix p width length indent postfix :
  recognized_width width = false ->
  usrc_writeArray io prefix p width length indent postfix
  = mkStdio (f io) (stderr io ++ unrecognized_width_message width).
Proof.
  intros H. unfold usrc_writeArray. rewrite H. reflexivity.
Qed.

Lemma UCPTrie_width_unrecognized (pTrie : UCPTrie) :
  valueWidth pTrie <> UCPTRIE_VALUE_BITS_16 ->
  valueWidth pTrie <> UCPTRIE_VALUE_BITS_32 ->
  valueWidth pTrie <> UCPTRIE_VALUE_BITS_8 ->
  UCPTrie_width pTrie = 0.
Proof.
  intros. unfold UCPTrie_width.
  repeat (rewrite (proj2 (Z.eqb_neq _ _)) by assumption). reflexivity.
Qed.

(** C5. A width that is none of 8, 16, 32, 64 is reported on [stderr] and
    nothing is written to [f], not even the prefix; this is so for the
    width 0 that an unrecognized value width tag of a trie gives, where
    the index array is written, the data array is skipped, and
    [usrc_writeUCPTrie] still returns after writing the struct. *)
Theorem usrc_writeArray_unrecognized_width
  (io : stdio) (prefix : option string) (p : list Z) (width length : Z)
  (indent : string) (postfix : option string)
  (indexPrefix dataPrefix : option string) (pTrie : UCPTrie) (name : string)
  (syntax : UTargetSyntax) :
  width <> 8 -> width <> 16 -> width <> 32 -> width <> 64 ->
  valueWidth pTrie <> UCPTRIE_VALUE_BITS_16 ->
  valueWidth pTrie <> UCPTRIE_VALUE_BITS_32 ->
  valueWidth pTrie <> UCPTRIE_VALUE_BITS_8 ->
  usrc_writeArray io prefix p width length indent postfix
  = mkStdio (f io) (stderr io ++ unrecognized_width_message width) /\
  (let io1 :=
     usrc_writeArray io indexPrefix (index pTrie) 16 (indexLength pTrie)
                     (if is_TOML syntax then "  " else EmptyString) postfix in
   usrc_writeUCPTrieArrays io indexPrefix dataPrefix pTrie postfix syntax
   = mkStdio (f io1) (stderr io1 ++ unrecognized_width_message 0)) /\
  (exists line line2 line3 prefix' indexName dataName postfix',
     usrc_writeUCPTrie io name pTrie UPRV_TARGET_SYNTAX_CCODE
     = Returned
         (usrc_writeUCPTrieStruct
            (usrc_writeUCPTrieArrays io line line2 pTrie line3
                                     UPRV_TARGET_SYNTAX_CCODE)
            prefix' pTrie indexName dataName postfix'
            UPRV_TARGET_SYNTAX_CCODE)) /\
  usrc_writeUCPTrie io name pTrie UPRV_TARGET_SYNTAX_TOML
  = Returned
      (usrc_writeUCPTrieStruct
         (usrc_writeUCPTrieArrays
            io (Some ("index = [" ++ LF ++ "  "))
            (Some ("data_0 = [" ++ LF ++ "  ")) pTrie (Some (LF ++ "]" ++ LF))
            UPRV_TARGET_SYNTAX_TOML)
         (Some EmptyString) pTrie EmptyString EmptyString (Some EmptyString)
         UPRV_TARGET_SYNTAX_TOML).
Proof.
  intros W8 W16 W32 W64 V16 V32 V8. split; [| split; [| split]].
  - apply usrc_writeArray_unrecognized.
    now apply recognized_width_false.
  - cbv zeta. unfold usrc_writeUCPTrieArrays.
    rewrite (UCPTrie_width_unrecognized pTrie V16 V32 V8).
    now apply usrc_writeArray_unrecognized.
  - unfold usrc_writeUCPTrie. repeat eexists.
  - unfold usrc_writeUCPTrie.
    rewrite (UCPTrie_width_unrecognized pTrie V16 V32 V8). reflexivity.
Qed.

(** ** The syntax of the trie serializer *)

(** C6, as the code has it.  [usrc_writeUCPTrie] aborts on a syntax value
    that is neither of the two enumerators, before anything is written;
    the array emission and the struct emission called on their own do not
    test for it: the arrays are written as for the C syntax and the struct
    as for the TOML syntax. *)
Theorem usrc_writeUCPTrie_other_syntax
  (raw : Z) (io : stdio) (name : string) (pTrie : UCPTrie)
  (prefix indexPrefix dataPrefix postfix : option string)
  (indexName dataName : string) :
  usrc_writeUCPTrie io name pTrie (UPRV_TARGET_SYNTAX_other raw) = Aborted io /\
  usrc_writeUCPTrieArrays io indexPrefix dataPrefix pTrie postfix
                          (UPRV_TARGET_SYNTAX_other raw)
  = usrc_writeUCPTrieArrays io indexPrefix dataPrefix pTrie postfix
                            UPRV_TARGET_SYNTAX_CCODE /\
  usrc_writeUCPTrieStruct io prefix pTrie indexName dataName postfix
                          (UPRV_TARGET_SYNTAX_other raw)
  = usrc_writeUCPTrieStruct io prefix pTrie indexName dataName postfix
                            UPRV_TARGET_SYNTAX_TOML.
Proof. repeat split. Qed.

(** ** The scalar fields of the trie struct *)

Ltac run_printf :=
  cbv beta iota zeta delta
    [sprintf printf_pieces conv_int conv_str va_int va_str flatten map
     piece_text values UCPTrieStruct_pattern UCPTrieStruct_args is_CCODE
     is_TOML scalar_fields C_framing TOML_framing LF DQUOTE BACKSLASH append
     Ascii.eqb Bool.eqb negb fst snd].

Lemma sprintf_UCPTrieStruct_CCODE (pTrie : UCPTrie) :
  sprintf (UCPTrieStruct_pattern UPRV_TARGET_SYNTAX_CCODE)
          (UCPTrieStruct_args pTrie)
  = C_framing (scalar_fields pTrie).
Proof. run_printf. reflexivity. Qed.

Lemma sprintf_UCPTrieStruct_TOML (pTrie : UCPTrie) :
  sprintf (UCPTrieStruct_pattern UPRV_TARGET_SYNTAX_TOML)
          (UCPTrieStruct_args pTrie)
  = TOML_framing (scalar_fields pTrie).
Proof. run_printf. reflexivity. Qed.

(** C7. Under both syntaxes the struct emission converts the same nine
    scalar fields in the same order: indexLength, dataLength, highStart,
    shifted12HighStart, type, valueWidth, index3NullOffset, dataNullOffset,
    nullValue; what is written differs in the framing only (and in the two
    array references the C syntax writes first). *)
Theorem usrc_writeUCPTrieStruct_same_fields
  (io : stdio) (prefix : option string) (pTrie : UCPTrie)
  (indexName dataName : string) (postfix : option string) :
  values (printf_pieces (UCPTrieStruct_pattern UPRV_TARGET_SYNTAX_CCODE)
                        (UCPTrieStruct_args pTrie))
  = scalar_fields pTrie /\
  values (printf_pieces (UCPTrieStruct_pattern UPRV_TARGET_SYNTAX_TOML)
                        (UCPTrieStruct_args pTrie))
  = scalar_fields pTrie /\
  f (usrc_writeUCPTrieStruct io prefix pTrie indexName dataName postfix
                             UPRV_TARGET_SYNTAX_CCODE)
  = (((f io ++ opt_text prefix)
      ++ "    " ++ indexName ++ "," ++ LF ++ "    { " ++ dataName ++ " }," ++ LF)
     ++ C_framing (scalar_fields pTrie))
    ++ opt_text postfix /\
  f (usrc_writeUCPTrieStruct io prefix pTrie indexName dataName postfix
                             UPRV_TARGET_SYNTAX_TOML)
  = ((f io ++ opt_text prefix) ++ TOML_framing (scalar_fields pTrie))
    ++ opt_text postfix.
Proof.
  split; [| split; [| split]].
  - run_printf. reflexivity.
  - run_printf. reflexivity.
  - unfold usrc_writeUCPTrieStruct.
    cbn [is_CCODE fprintf f]. rewrite f_fputs_opt. cbn [fprintf f].
    rewrite sprintf_UCPTrieStruct_CCODE, f_fputs_opt.
    reflexivity.
  - unfold usrc_writeUCPTrieStruct.
    cbn [is_CCODE fprintf f]. rewrite f_fputs_opt. cbn [fprintf f].
    now rewrite sprintf_UCPTrieStruct_TOML, f_fputs_opt.
Qed.

(** ** The byte array writer *)

Lemma byte_range (p : list Z) (i : Z) : 0 <= byte p i < 256.
Proof.
  unfold byte, to_unsigned. change (2 ^ 8) with 256.
  Z.div_mod_to_equations; lia.
Qed.

Lemma line_break_rule_break (col prev2 prev c : Z) :
  line_break_rule col prev2 prev c
  = usrc_writeArrayOfMostlyInvChars_break col prev2 prev c.
Proof.
  unfold line_break_rule, usrc_writeArrayOfMostlyInvChars_break, printable.
  replace (1 <=? c) with (0 <? c)
    by (destruct (Z.ltb_spec 0 c), (Z.leb_spec 1 c); trivial; lia).
  replace (c <=? 31) with (c <? 32)
    by (destruct (Z.ltb_spec c 32), (Z.leb_spec c 31); trivial; lia).
  destruct (32 <=? col), (24 <=? col), (16 <=? col), (prev =? 0),
    (32 <=? prev2), (32 <=? prev), (0 <? c), (c <? 32); reflexivity.
Qed.

Lemma usrc_writeArrayOfMostlyInvChars_loop_S p n io :
  usrc_writeArrayOfMostlyInvChars_loop p (S n) io
  = usrc_writeArrayOfMostlyInvChars_body p
      (usrc_writeArrayOfMostlyInvChars_loop p n io).
Proof. reflexivity. Qed.

(** The loop variables after [k] turns. *)
Lemma usrc_writeArrayOfMostlyInvChars_loop_invariant p io (k : nat) :
  let s := usrc_writeArrayOfMostlyInvChars_loop p k io in
  let i := Z.of_nat k in
  c_i s = i /\ c_col s = line_fill p k /\
  c_prev s = byte_before p i 1 /\ c_prev2 s = byte_before p i 2.
Proof.
  induction k as [|k IH].
  - repeat split.
  - cbv zeta in IH |- *. destruct IH as (Ei & Ec & Ep & Ep2).
    rewrite usrc_writeArrayOfMostlyInvChars_loop_S.
    set (s := usrc_writeArrayOfMostlyInvChars_loop p k io) in *.
    unfold usrc_writeArrayOfMostlyInvChars_body,
      usrc_writeArrayOfMostlyInvChars_separator.
    rewrite Ei, Ec, Ep, Ep2. fold (byte p (Z.of_nat k)).
    rewrite <- line_break_rule_break.
    cbn [line_fill]. cbv zeta.
    destruct (0 <? Z.of_nat k);
      [destruct (line_break_rule _ _ _ _) |];
      cbn [andb c_i c_col c_prev c_prev2]; repeat split; try lia;
      unfold byte_before;
      try (replace (1 <=? Z.of_nat (S k)) with true
             by (symmetry; apply Z.leb_le; lia);
           f_equal; lia);
      destruct (Z.leb_spec 1 (Z.of_nat k)), (Z.leb_spec 2 (Z.of_nat (S k)));
      try lia; trivial; f_equal; lia.
Qed.

(** ** The string escaper *)

Lemma fprintf_fputs (fmt : string) (args : list arg) (io : stdio) :
  fprintf fmt args io = fputs (sprintf fmt args) io.
Proof. reflexivity. Qed.

Lemma fputs_fputs (a b : string) (io : stdio) :
  fputs b (fputs a io) = fputs (a ++ b) io.
Proof. unfold fputs. cbn [f stderr]. now rewrite append_assoc. Qed.

Lemma fputs_nil (io : stdio) : fputs EmptyString io = io.
Proof. destruct io. unfold fputs. cbn [f stderr]. now rewrite append_nil_r. Qed.

Lemma land_le (a b : Z) : 0 <= a -> Z.land a b <= a.
Proof.
  intros Ha.
  assert (E : Z.ldiff a b + Z.land a b = a).
  { rewrite Z.add_nocarry_lxor, Z.lxor_lor, Z.lor_ldiff_and; trivial;
      rewrite (Z.land_comm a b), Z.land_assoc, Z.land_ldiff; apply Z.land_0_l. }
  assert (0 <= Z.ldiff a b) by (apply Z.ldiff_nonneg; now left).
  lia.
Qed.

Lemma to_unsigned_16_range (c : Z) : 0 <= to_unsigned 16 c < 65536.
Proof.
  unfold to_unsigned. change (2 ^ 16) with 65536. Z.div_mod_to_equations; lia.
Qed.

Lemma U16_IS_LEAD_ge (c : Z) : 0 <= c -> U16_IS_LEAD c = true -> 0xd800 <= c.
Proof.
  unfold U16_IS_LEAD. intros Hc H. apply Z.eqb_eq in H.
  pose proof (land_le c 0xfffffc00 Hc). lia.
Qed.

Lemma U16_IS_TRAIL_ge (c : Z) : 0 <= c -> U16_IS_TRAIL c = true -> 0xdc00 <= c.
Proof.
  unfold U16_IS_TRAIL. intros Hc H. apply Z.eqb_eq in H.
  pose proof (land_le c 0xfffffc00 Hc). lia.
Qed.

Lemma U16_GET_SUPPLEMENTARY_ge (lead trail : Z) :
  0xd800 <= lead -> 0xdc00 <= trail -> 0x10000 <= U16_GET_SUPPLEMENTARY lead trail.
Proof.
  intros Hl Ht. unfold U16_GET_SUPPLEMENTARY, U16_SURROGATE_OFFSET.
  rewrite !Z.shiftl_mul_pow2 by lia. lia.
Qed.

(** Induction over the code units the way [U16_NEXT] consumes them. *)
Lemma U16_list_ind (P : list Z -> Prop) :
  P [] ->
  (forall c, P [] -> P [c]) ->
  (forall c c2 r, P (c2 :: r) -> P r -> P (c :: c2 :: r)) ->
  forall s, P s.
Proof.
  intros H0 H1 H2 s.
  assert (H : P s /\ forall c, P (c :: s)).
  { induction s as [|c2 r [IH1 IH2]]; split; auto. }
  apply H.
Qed.

Lemma U16_decode_nonneg (s : list Z) : Forall (fun cp => 0 <= cp) (U16_decode s).
Proof.
  induction s as [| c _ | c c2 r IH1 IH2] using U16_list_ind.
  - constructor.
  - constructor; [apply to_unsigned_16_range | constructor].
  - change (U16_decode (c :: c2 :: r)) with
      (if U16_IS_LEAD (to_unsigned 16 c) && U16_IS_TRAIL (to_unsigned 16 c2)
       then U16_GET_SUPPLEMENTARY (to_unsigned 16 c) (to_unsigned 16 c2)
            :: U16_decode r
       else to_unsigned 16 c :: U16_decode (c2 :: r)).
    destruct (U16_IS_LEAD (to_unsigned 16 c)) eqn:El;
      [destruct (U16_IS_TRAIL (to_unsigned 16 c2)) eqn:Et |]; cbn [andb];
      constructor; trivial; try apply to_unsigned_16_range.
    pose proof (U16_GET_SUPPLEMENTARY_ge (to_unsigned 16 c) (to_unsigned 16 c2)
                  (U16_IS_LEAD_ge _ (proj1 (to_unsigned_16_range c)) El)
                  (U16_IS_TRAIL_ge _ (proj1 (to_unsigned_16_range c2)) Et)).
    lia.
Qed.

(** A double quote among the code units is decoded where it stands. *)
Lemma U16_decode_quote (pre post : list Z) :
  U16_decode (pre ++ 0x22 :: post)%list
  = (U16_decode pre ++ 0x22 :: U16_decode post)%list.
Proof.
  assert (Q : forall post, U16_decode (0x22 :: post) = 0x22 :: U16_decode post).
  { intros [| c2 r]; reflexivity. }
  induction pre as [| c _ | c c2 r IH1 IH2] using U16_list_ind.
  - apply Q.
  - change (U16_decode ([c] ++ 34 :: post)%list) with
      (if U16_IS_LEAD (to_unsigned 16 c) && U16_IS_TRAIL (to_unsigned 16 34)
       then U16_GET_SUPPLEMENTARY (to_unsigned 16 c) (to_unsigned 16 34)
            :: U16_decode post
       else to_unsigned 16 c :: U16_decode (34 :: post)).
    replace (U16_IS_TRAIL (to_unsigned 16 34)) with false by reflexivity.
    now rewrite andb_false_r, Q.
  - change (U16_decode (c :: c2 :: r)) with
      (if U16_IS_LEAD (to_unsigned 16 c) && U16_IS_TRAIL (to_unsigned 16 c2)
       then U16_GET_SUPPLEMENTARY (to_unsigned 16 c) (to_unsigned 16 c2)
            :: U16_decode r
       else to_unsigned 16 c :: U16_decode (c2 :: r)).
    change (U16_decode ((c :: c2 :: r) ++ 34 :: post)%list) with
      (if U16_IS_LEAD (to_unsigned 16 c) && U16_IS_TRAIL (to_unsigned 16 c2)
       then U16_GET_SUPPLEMENTARY (to_unsigned 16 c) (to_unsigned 16 c2)
            :: U16_decode (r ++ 34 :: post)%list
       else to_unsigned 16 c :: U16_decode ((c2 :: r) ++ 34 :: post)%list).
    rewrite IH1, IH2.
    destruct (U16_IS_LEAD (to_unsigned 16 c) && U16_IS_TRAIL (to_unsigned 16 c2));
      reflexivity.
Qed.

Lemma bare_quote_skip (s t : string) :
  count_char "034" s = 0 ->
  forall b, exists b', bare_quote b (s ++ t) = bare_quote b' t.
Proof.
  induction s as [|a r IH]; intros Hs b.
  - now exists b.
  - cbn [count_char] in Hs. pose proof (count_char_nonneg "034" r).
    destruct (Ascii.eqb a "034") eqn:Ea; [lia |].
    destruct (IH ltac:(lia) (Ascii.eqb a "092")) as [b' Hb'].
    exists b'. cbn [append bare_quote]. now rewrite Ea, Hb'.
Qed.

Lemma ascii_of_small (c : Z) :
  0 <= c < 256 -> N_of_ascii (ascii_of_N (Z.to_N c)) = Z.to_N c.
Proof. intros H. apply N_ascii_embedding. lia. Qed.

Lemma char_string_ascii (cp : Z) :
  0 < cp < 256 -> char_string cp = String (ascii_of_N (Z.to_N cp)) EmptyString.
Proof.
  intros H. unfold char_string.
  rewrite to_unsigned_id by (change (2 ^ 8) with 256; lia).
  now replace (cp =? 0) with false by (symmetry; apply Z.eqb_neq; lia).
Qed.

Lemma char_string_no_quote (cp : Z) :
  0 <= cp < 0x80 -> cp <> 0x22 -> count_char "034" (char_string cp) = 0.
Proof.
  intros H Hq. destruct (Z.eq_dec cp 0) as [-> | H0]; [reflexivity |].
  rewrite char_string_ascii by lia. cbn [count_char].
  replace (Ascii.eqb (ascii_of_N (Z.to_N cp)) "034") with false; [reflexivity |].
  symmetry. apply Ascii.eqb_neq. intros E.
  apply (f_equal N_of_ascii) in E. rewrite ascii_of_small in E by lia.
  cbn in E. lia.
Qed.

Section StringEscaper.

Variable U_DEBUG : bool.
Variable isUnprintable : Z -> bool.
Variable escapeUnprintable : Z -> string.

Local Abbreviation cp_text := (code_point_text isUnprintable escapeUnprintable).
Local Abbreviation text := (string_text isUnprintable escapeUnprintable).
Local Abbreviation write_cp :=
  (usrc_writeStringAsASCII_cp U_DEBUG isUnprintable escapeUnprintable).
Local Abbreviation write_loop :=
  (usrc_writeStringAsASCII_loop U_DEBUG isUnprintable escapeUnprintable).
Local Abbreviation write_string :=
  (usrc_writeStringAsASCII U_DEBUG isUnprintable escapeUnprintable).

(** The classifier leaves no code point beyond ASCII to be written as it
    is: the contract [U_ASSERT(cp < 0x80)] states. *)
Hypothesis unprintable_beyond_ascii :
  forall cp, 0x80 <= cp -> isUnprintable cp = true.

Lemma usrc_writeStringAsASCII_cp_text (cp : Z) (io : stdio) :
  write_cp cp io = Returned (fputs (cp_text cp) io).
Proof.
  unfold usrc_writeStringAsASCII_cp, code_point_text.
  destruct (cp =? 34); [reflexivity |].
  destruct (isUnprintable cp) eqn:Eu.
  - rewrite fprintf_fputs. cbv [sprintf]. cbn. now rewrite append_nil_r.
  - unfold U_ASSERT.
    replace (cp <? 128) with true.
    + rewrite andb_false_r. cbn [bind]. rewrite fprintf_fputs.
      cbv [sprintf]. cbn. now rewrite append_nil_r.
    + symmetry. apply Z.ltb_lt.
      destruct (Z.lt_ge_cases cp 128) as [H | H]; trivial.
      apply unprintable_beyond_ascii in H. congruence.
Qed.

Lemma usrc_writeStringAsASCII_loop_text (s : list Z) :
  forall io, write_loop s io = Returned (fputs (text s) io).
Proof.
  induction s as [| c _ | c c2 r IH1 IH2] using U16_list_ind; intros io.
  - cbn. now rewrite fputs_nil.
  - cbn [usrc_writeStringAsASCII_loop]. rewrite usrc_writeStringAsASCII_cp_text.
    cbn [bind]. unfold string_text. cbn [U16_decode map flatten].
    now rewrite append_nil_r.
  - change (write_loop (c :: c2 :: r) io) with
      (if U16_IS_LEAD (to_unsigned 16 c) && U16_IS_TRAIL (to_unsigned 16 c2)
       then
         do io <- write_cp
                    (U16_GET_SUPPLEMENTARY (to_unsigned 16 c) (to_unsigned 16 c2))
                    io;
         write_loop r io
       else
         do io <- write_cp (to_unsigned 16 c) io;
         write_loop (c2 :: r) io).
    change (text (c :: c2 :: r)) with
      (flatten (map cp_text
         (if U16_IS_LEAD (to_unsigned 16 c) && U16_IS_TRAIL (to_unsigned 16 c2)
          then U16_GET_SUPPLEMENTARY (to_unsigned 16 c) (to_unsigned 16 c2)
               :: U16_decode r
          else to_unsigned 16 c :: U16_decode (c2 :: r)))).
    destruct (U16_IS_LEAD (to_unsigned 16 c) && U16_IS_TRAIL (to_unsigned 16 c2));
      rewrite usrc_writeStringAsASCII_cp_text; cbn [bind];
      rewrite ?IH1, ?IH2, fputs_fputs; reflexivity.
Qed.

Lemma usrc_writeStringAsASCII_text io ptr length syntax :
  write_string io ptr length syntax
  = Returned (fputs (DQUOTE ++ text (firstn (Z.to_nat length) ptr) ++ DQUOTE) io).
Proof.
  unfold usrc_writeStringAsASCII.
  rewrite usrc_writeStringAsASCII_loop_text. cbn [bind].
  rewrite !fprintf_fputs, !fputs_fputs.
  reflexivity.
Qed.

Lemma text_quote (pre post : list Z) :
  text (pre ++ 0x22 :: post)%list = text pre ++ BACKSLASH ++ DQUOTE ++ text post.
Proof.
  unfold string_text. rewrite U16_decode_quote, map_app, flatten_app.
  reflexivity.
Qed.

Lemma U16_decode_ascii (s : list Z) :
  Forall (fun c => 0x20 <= c <= 0x7E /\ c <> 0x22) s -> U16_decode s = s.
Proof.
  assert (U : forall c, 0x20 <= c <= 0x7E -> to_unsigned 16 c = c).
  { intros c H. apply to_unsigned_id. change (2 ^ 16) with 65536. lia. }
  assert (L : forall c, 0x20 <= c <= 0x7E -> U16_IS_LEAD c = false).
  { intros c H. destruct (U16_IS_LEAD c) eqn:E; trivial.
    apply U16_IS_LEAD_ge in E; lia. }
  induction s as [| c _ | c c2 r IH1 IH2] using U16_list_ind; intros H.
  - reflexivity.
  - inversion H as [| ? ? [Hc _] _]; subst. cbn. now rewrite U.
  - inversion H as [| ? ? [Hc _] H']; subst.
    change (U16_decode (c :: c2 :: r)) with
      (if U16_IS_LEAD (to_unsigned 16 c) && U16_IS_TRAIL (to_unsigned 16 c2)
       then U16_GET_SUPPLEMENTARY (to_unsigned 16 c) (to_unsigned 16 c2)
            :: U16_decode r
       else to_unsigned 16 c :: U16_decode (c2 :: r)).
    rewrite (U c Hc), (L c Hc). cbn [andb]. now rewrite IH1.
Qed.

Section Printable.

Hypothesis printable_ascii :
  forall cp, 0x20 <= cp <= 0x7E -> isUnprintable cp = false.

Lemma text_ascii (s : list Z) :
  Forall (fun c => 0x20 <= c <= 0x7E /\ c <> 0x22) s -> text s = units_text s.
Proof.
  intros H. unfold string_text, units_text.
  rewrite (U16_decode_ascii s H). f_equal.
  apply map_ext_in. intros c Hc.
  rewrite Forall_forall in H. destruct (H c Hc) as [Hr Hq].
  unfold code_point_text.
  replace (c =? 34) with false by (symmetry; apply Z.eqb_neq; lia).
  rewrite (printable_ascii c Hr). apply char_string_ascii. lia.
Qed.

End Printable.

Section NoBareQuote.

Hypothesis escape_no_quote :
  forall cp, count_char "034" (escapeUnprintable cp) = 0.

Lemma flatten_no_bare_quote (l : list Z) :
  Forall (fun cp => 0 <= cp) l ->
  forall b, bare_quote b (flatten (map cp_text l)) = false.
Proof.
  induction 1 as [| cp l Hcp _ IH]; intros b; [reflexivity |].
  cbn [map flatten]. unfold code_point_text at 1.
  destruct (Z.eqb_spec cp 34) as [-> | Hq].
  - cbn. apply IH.
  - assert (Hn : count_char "034"
             (if isUnprintable cp then escapeUnprintable cp else char_string cp)
             = 0).
    { destruct (isUnprintable cp) eqn:Eu; [apply escape_no_quote |].
      apply char_string_no_quote; trivial.
      destruct (Z.lt_ge_cases cp 128) as [Hlt | Hge]; [lia |].
      apply unprintable_beyond_ascii in Hge. congruence. }
    destruct (bare_quote_skip _ (flatten (map cp_text l)) Hn b) as [b' Hb'].
    rewrite Hb'. apply IH.
Qed.

Lemma text_no_bare_quote (s : list Z) : bare_quote false (text s) = false.
Proof. apply flatten_no_bare_quote, U16_decode_nonneg. Qed.

End NoBareQuote.

End StringEscaper.

(** C9. The escaper writes a literal between two double quotes; a double
    quote among the code units is written where it stands as a backslash
    and the quote, so that no quote of the literal is without its
    backslash; and code units that are printable ASCII other than the
    quote are written as they are, the three of [abc] giving the literal
    of [abc]. *)
Theorem usrc_writeStringAsASCII_escapes
  (U_DEBUG : bool) (isUnprintable : Z -> bool) (escapeUnprintable : Z -> string)
  (io : stdio) (ptr : list Z) (length : Z) (syntax : UTargetSyntax)
  (pre post : list Z) :
  (forall cp, 0x80 <= cp -> isUnprintable cp = true) ->
  (forall cp, 0x20 <= cp <= 0x7E -> isUnprintable cp = false) ->
  (forall cp, count_char "034" (escapeUnprintable cp) = 0) ->
  let text := string_text isUnprintable escapeUnprintable in
  let write := usrc_writeStringAsASCII U_DEBUG isUnprintable escapeUnprintable in
  write io ptr length syntax
  = Returned (fputs (DQUOTE ++ text (firstn (Z.to_nat length) ptr) ++ DQUOTE) io) /\
  bare_quote false (text (firstn (Z.to_nat length) ptr)) = false /\
  text (pre ++ 0x22 :: post)%list = text pre ++ BACKSLASH ++ DQUOTE ++ text post /\
  (Forall (fun c => 0x20 <= c <= 0x7E /\ c <> 0x22) pre ->
   text pre = units_text pre) /\
  write io [97; 98; 99] 3 syntax = Returned (fputs (DQUOTE ++ "abc" ++ DQUOTE) io).
Proof.
  intros H1 H2 H3 text write. subst text write.
  split; [| split; [| split; [| split]]].
  - now apply usrc_writeStringAsASCII_text.
  - now apply text_no_bare_quote.
  - apply text_quote.
  - now apply text_ascii.
  - rewrite usrc_writeStringAsASCII_text by trivial.
    change (firstn (Z.to_nat 3) [97; 98; 99]) with [97; 98; 99].
    rewrite (text_ascii isUnprintable escapeUnprintable H2)
      by (repeat constructor; lia).
    reflexivity.
Qed.

(** ** The range set serializer *)

Section RangeSet.

Variable U_DEBUG : bool.
Variable isUnprintable : Z -> bool.
Variable escapeUnprintable : Z -> string.

Local Abbreviation write_set_loop :=
  (usrc_writeUnicodeSet_loop U_DEBUG isUnprintable escapeUnprintable).
Local Abbreviation entry := (string_entry isUnprintable escapeUnprintable).

Lemma usrc_writeUnicodeSet_loop_ranges (ranges : list (Z * Z)) :
  forall (rest : list set_item) (syntax : UTargetSyntax) (io : stdio),
    write_set_loop (map range_item ranges ++ rest)%list false syntax io
    = write_set_loop rest false syntax
        (fputs (flatten (map range_text ranges)) io).
Proof.
  induction ranges as [| [a b] ranges IH]; intros rest syntax io.
  - cbn. now rewrite fputs_nil.
  - cbn [map app range_item fst snd usrc_writeUnicodeSet_loop negb].
    unfold U_ASSERT. cbn [negb]. rewrite andb_false_r. cbn [bind].
    rewrite IH, fprintf_fputs, fputs_fputs. reflexivity.
Qed.

Hypothesis unprintable_beyond_ascii :
  forall cp, 0x80 <= cp -> isUnprintable cp = true.

Lemma usrc_writeStringAsASCII_whole (io : stdio) (s : list Z)
  (syntax : UTargetSyntax) :
  usrc_writeStringAsASCII U_DEBUG isUnprintable escapeUnprintable io s
                          (Z.of_nat (List.length s)) syntax
  = Returned
      (fputs (DQUOTE ++ string_text isUnprintable escapeUnprintable s ++ DQUOTE)
             io).
Proof.
  rewrite usrc_writeStringAsASCII_text by exact unprintable_beyond_ascii.
  now rewrite Nat2Z.id, firstn_all.
Qed.

Lemma usrc_writeUnicodeSet_loop_strings (strings : list (list Z)) :
  forall (seenFirstString : bool) (syntax : UTargetSyntax) (io : stdio),
    write_set_loop (map set_string strings) seenFirstString syntax io
    = Returned
        (fputs ((if seenFirstString then EmptyString
                 else match strings with
                      | [] => EmptyString
                      | _ => strings_opener
                      end)
                ++ flatten (map entry strings)) io).
Proof.
  induction strings as [| s strings IH]; intros seen syntax io.
  - destruct seen; cbn; now rewrite fputs_nil.
  - cbn [map usrc_writeUnicodeSet_loop].
    rewrite usrc_writeStringAsASCII_whole. cbn [bind]. rewrite IH.
    rewrite !fprintf_fputs, !fputs_fputs.
    destruct seen; cbn [negb]; rewrite ?fprintf_fputs, ?fputs_fputs;
      f_equal; f_equal; cbn [flatten]; unfold string_entry;
      rewrite ?append_assoc; reflexivity.
Qed.

End RangeSet.

(** C4. For a set whose iterator goes through the ranges and then through
    the strings, every range is written as a pair of hexadecimal numbers
    in the [ranges] list, which is open from the start; the [strings] list
    is opened once, after the last range, when there is a string, and not
    at all when there is none; each string is written as the literal the
    string escaper gives for it. *)
Theorem usrc_writeUnicodeSet_ranges_then_strings
  (U_DEBUG : bool) (isUnprintable : Z -> bool) (escapeUnprintable : Z -> string)
  (io : stdio) (ranges : list (Z * Z)) (strings : list (list Z)) :
  (forall cp, 0x80 <= cp -> isUnprintable cp = true) ->
  usrc_writeUnicodeSet U_DEBUG isUnprintable escapeUnprintable io
    (map range_item ranges ++ map set_string strings)%list
    UPRV_TARGET_SYNTAX_TOML
  = Returned
      (fputs
         (set_header ++ ("ranges = [" ++ LF)
          ++ flatten (map range_text ranges)
          ++ match strings with
             | [] => EmptyString
             | _ =>
               strings_opener
               ++ flatten (map (string_entry isUnprintable escapeUnprintable)
                               strings)
             end
          ++ "]" ++ LF)
         io) /\
  forall (io : stdio) (s : list Z),
    In s strings ->
    usrc_writeStringAsASCII U_DEBUG isUnprintable escapeUnprintable io s
                            (Z.of_nat (List.length s)) UPRV_TARGET_SYNTAX_TOML
    = Returned
        (fputs (DQUOTE ++ string_text isUnprintable escapeUnprintable s ++ DQUOTE)
               io).
Proof.
  intros H. split.
  - unfold usrc_writeUnicodeSet, U_ASSERT. cbn [is_TOML negb].
    rewrite andb_false_r. cbn [bind].
    rewrite usrc_writeUnicodeSet_loop_ranges.
    rewrite usrc_writeUnicodeSet_loop_strings by exact H. cbn [bind].
    rewrite !fprintf_fputs, !fputs_fputs. do 2 f_equal.
    destruct strings; cbn [append]; rewrite ?append_assoc; reflexivity.
  - intros io' s _. now apply usrc_writeStringAsASCII_whole.
Qed.

(** ** The range value map serializer *)

Lemma range_cover_once (entries : list (Z * Z * Z)) :
  forall start last,
    range_cover start entries last ->
    start <= last + 1 /\
    forall c, covering c entries
              = if (start <=? c) && (c <=? last) then 1 else 0.
Proof.
  induction entries as [| [[a b] v] entries IH]; intros start last H.
  - cbn in H. subst. split; [lia |]. intros c. cbn.
    destruct (Z.leb_spec (last + 1) c), (Z.leb_spec c last); trivial; lia.
  - cbn [range_cover] in H. destruct H as (-> & Hab & H).
    destruct (IH _ _ H) as [Hle Hc]. split; [lia |].
    intros c. cbn [covering]. rewrite Hc.
    destruct (Z.leb_spec start c), (Z.leb_spec c b), (Z.leb_spec (b + 1) c),
      (Z.leb_spec c last); cbn [andb]; lia.
Qed.

Lemma sprintf_entry (valueNameGetter : option (Z -> string)) (a b v : Z) :
  match valueNameGetter with
  | Some getName =>
    sprintf ("  {a=0x%x, b=0x%x, v=%u, name=" ++ DQUOTE ++ "%s" ++ DQUOTE
             ++ "}," ++ LF)
            [Int a; Int b; Int v; Str (getName v)]
  | None =>
    sprintf ("  {a=0x%x, b=0x%x, v=%u}," ++ LF) [Int a; Int b; Int v]
  end
  = entry_text valueNameGetter (a, b, v).
Proof.
  destruct valueNameGetter; unfold entry_text; run_printf; reflexivity.
Qed.

Section RangeValueMap.

Variable pMap : UCPMap.
Variable valueNameGetter : option (Z -> string).

(** The contract of [ucpmap_getRange] for a map that is total over
    U+0000..U+10FFFF: the range that starts at a code point ends at or
    after it, within the code points; past the last code point the end is
    negative. *)
Hypothesis getRange_total :
  forall start, 0 <= start <= 0x10FFFF ->
                start <= fst (ucpmap_getRange pMap start) <= 0x10FFFF.
Hypothesis getRange_exhausted :
  forall start, 0x10FFFF < start -> fst (ucpmap_getRange pMap start) < 0.

Lemma usrc_writeUCPMap_loop_covers (fuel : nat) :
  forall (start : Z) (io : stdio),
    0 <= start <= 0x110000 ->
    0x110000 - start < Z.of_nat fuel ->
    exists entries,
      usrc_writeUCPMap_loop fuel pMap valueNameGetter start io
      = Some (fputs (flatten (map (entry_text valueNameGetter) entries)) io) /\
      range_cover start entries 0x10FFFF /\
      Forall (fun e => ucpmap_getRange pMap (fst (fst e)) = (snd (fst e), snd e))
             entries.
Proof.
  induction fuel as [| fuel IH]; intros start io Hs Hf; [lia |].
  cbn [usrc_writeUCPMap_loop].
  destruct (ucpmap_getRange pMap start) as [end_ value] eqn:Eg.
  destruct (Z.eq_dec start 0x110000) as [-> | Hne].
  - pose proof (getRange_exhausted 0x110000 ltac:(lia)) as He.
    rewrite Eg in He. cbn [fst] in He.
    replace (0 <=? end_) with false by (symmetry; apply Z.leb_gt; lia).
    exists []. cbn [map flatten]. rewrite fputs_nil.
    repeat split. constructor.
  - pose proof (getRange_total start ltac:(lia)) as He.
    rewrite Eg in He. cbn [fst] in He.
    replace (0 <=? end_) with true by (symmetry; apply Z.leb_le; lia).
    destruct (IH (end_ + 1)
                 (match valueNameGetter with
                  | Some getName =>
                    fprintf ("  {a=0x%x, b=0x%x, v=%u, name=" ++ DQUOTE ++ "%s"
                             ++ DQUOTE ++ "}," ++ LF)
                            [Int start; Int end_; Int value; Str (getName value)]
                            io
                  | None =>
                    fprintf ("  {a=0x%x, b=0x%x, v=%u}," ++ LF)
                            [Int start; Int end_; Int value] io
                  end)
                 ltac:(lia) ltac:(lia)) as (entries & E & Hc & Hg).
    exists ((start, end_, value) :: entries). split; [| split].
    + rewrite E. f_equal. cbn [map flatten].
      rewrite <- (sprintf_entry valueNameGetter start end_ value).
      destruct valueNameGetter; rewrite fprintf_fputs, fputs_fputs; reflexivity.
    + cbn [range_cover]. repeat split; trivial; lia.
    + constructor; trivial.
Qed.

End RangeValueMap.

(** C3. For a map that keeps the contract of its range query, the
    serializer starts at code point 0, writes one entry [a], [b], [v] for
    each range the query returns, with the name exactly when there is a
    name getter, goes on from [b + 1], and stops at the negative end: the
    loop ends, and the ranges written, in their order, go from 0 to
    0x10FFFF with no gap and no overlap, every code point in one range. *)
Theorem usrc_writeUCPMap_covers
  (U_DEBUG : bool) (fuel : nat) (io : stdio) (pMap : UCPMap)
  (valueNameGetter : option (Z -> string)) :
  (forall start, 0 <= start <= 0x10FFFF ->
                 start <= fst (ucpmap_getRange pMap start) <= 0x10FFFF) ->
  (forall start, 0x10FFFF < start -> fst (ucpmap_getRange pMap start) < 0) ->
  0x110000 < Z.of_nat fuel ->
  exists entries,
    usrc_writeUCPMap U_DEBUG fuel io pMap valueNameGetter UPRV_TARGET_SYNTAX_TOML
    = Some (Returned
              (fputs (map_header ++ ("ranges = [" ++ LF)
                      ++ flatten (map (entry_text valueNameGetter) entries)
                      ++ "]" ++ LF) io)) /\
    range_cover 0 entries 0x10FFFF /\
    Forall (fun e => ucpmap_getRange pMap (fst (fst e)) = (snd (fst e), snd e))
           entries /\
    forall c, 0 <= c <= 0x10FFFF -> covering c entries = 1.
Proof.
  intros Ht He Hf.
  unfold usrc_writeUCPMap, U_ASSERT. cbn [is_TOML negb].
  rewrite andb_false_r.
  destruct (usrc_writeUCPMap_loop_covers pMap valueNameGetter Ht He fuel 0
              (fprintf ("ranges = [" ++ LF) []
                 (fprintf map_header [] io)) ltac:(lia) ltac:(lia))
    as (entries & E & Hc & Hg).
  exists entries. split; [| split; [| split]]; trivial.
  - unfold map_header in E |- *. rewrite E.
    rewrite !fprintf_fputs, !fputs_fputs. do 3 f_equal.
  - intros c Hcp. destruct (range_cover_once entries 0 0x10FFFF Hc) as [_ H].
    rewrite H.
    now replace ((0 <=? c) && (c <=? 0x10FFFF)) with true
      by (symmetry; apply andb_true_intro; split; apply Z.leb_le; lia).
Qed.

(** ** Examples *)

(** The two-range map is written as the two entries, in order. *)
Example usrc_writeUCPMap_two_ranges :
  usrc_writeUCPMap true 3 stdio0 two_ranges None UPRV_TARGET_SYNTAX_TOML
  = Some (Returned
            (mkStdio (map_header ++ "ranges = [" ++ LF
                      ++ "  {a=0x0, b=0x7f, v=0}," ++ LF
                      ++ "  {a=0x80, b=0x10ffff, v=1}," ++ LF
                      ++ "]" ++ LF)
                     EmptyString)).
Proof. vm_compute. reflexivity. Qed.

(** The byte array of the example breaks the line before the control byte. *)
Example usrc_writeArrayOfMostlyInvChars_example :
  f (usrc_writeArrayOfMostlyInvChars stdio0 None example_bytes 18 None)
  = "'a','a','a','a','a','a','a','a','a','a','a','a','a','a','a','a',"
    ++ LF ++ "1,'b'".
Proof. vm_compute. reflexivity. Qed.

Lemma two_ranges_total (start : Z) :
  0 <= start <= 0x10FFFF ->
  start <= fst (ucpmap_getRange two_ranges start) <= 0x10FFFF.
Proof.
  intros H. unfold ucpmap_getRange, two_ranges.
  destruct (Z.leb_spec 0 start), (Z.leb_spec start 0x7F),
    (Z.leb_spec 0x80 start), (Z.leb_spec start 0x10FFFF); cbn; lia.
Qed.

Lemma two_ranges_exhausted (start : Z) :
  0x10FFFF < start -> fst (ucpmap_getRange two_ranges start) < 0.
Proof.
  intros H. unfold ucpmap_getRange, two_ranges.
  destruct (Z.leb_spec 0 start), (Z.leb_spec start 0x7F),
    (Z.leb_spec 0x80 start), (Z.leb_spec start 0x10FFFF); cbn; lia.
Qed.

Lemma ascii_isUnprintable_beyond (cp : Z) :
  0x80 <= cp -> ascii_isUnprintable cp = true.
Proof.
  intros H. unfold ascii_isUnprintable.
  destruct (Z.leb_spec 0x20 cp), (Z.leb_spec cp 0x7E); trivial; lia.
Qed.

Lemma ascii_isUnprintable_printable (cp : Z) :
  0x20 <= cp <= 0x7E -> ascii_isUnprintable cp = false.
Proof.
  intros H. unfold ascii_isUnprintable.
  destruct (Z.leb_spec 0x20 cp), (Z.leb_spec cp 0x7E); trivial; lia.
Qed.

Lemma digit_no_quote (c shift : Z) : count_char "034" (digit c shift) = 0.
Proof.
  unfold digit. change 0xF with (Z.ones 4). rewrite Z.land_ones by lia.
  change (2 ^ 4) with 16.
  assert (Hk : (Z.to_nat (Z.shiftr c shift mod 16) < 16)%nat).
  { pose proof (Z.mod_pos_bound (Z.shiftr c shift) 16 ltac:(lia)). lia. }
  revert Hk. generalize (Z.to_nat (Z.shiftr c shift mod 16)) as k. intros k Hk.
  do 16 (destruct k as [| k]; [reflexivity |]). lia.
Qed.

Lemma ascii_escapeUnprintable_no_quote (cp : Z) :
  count_char "034" (ascii_escapeUnprintable cp) = 0.
Proof.
  unfold ascii_escapeUnprintable.
  destruct (Z.land cp (Z.lnot 65535) =? 0);
    rewrite !count_char_app, !digit_no_quote; reflexivity.
Qed.

(** ** The theorems at work *)

Lemma usrc_writeArray_wrap_count_witness :
  count_char "010"
    (f (usrc_writeArray stdio0 None (repeat 7 40) 8 40 "  " None)) = 2 /\
  count_char ","
    (f (usrc_writeArray stdio0 None (repeat 7 40) 8 40 "  " None)) = 39.
Proof.
  destruct (usrc_writeArray_wrap_count stdio0 None (repeat 7 40) 8 40 "  " None)
    as (H1 & H2 & _); [reflexivity | lia | reflexivity | reflexivity |].
  split; [exact H1 | exact H2].
Defined.

Lemma usrc_writeArray_unrecognized_width_witness :
  usrc_writeArray stdio0 (Some "x[%ld]={") [1; 2; 3] 0 3 EmptyString (Some "};")
  = mkStdio EmptyString ("usrc_writeArray(width=0) unrecognized width" ++ LF).
Proof.
  refine (proj1 (usrc_writeArray_unrecognized_width
                   stdio0 (Some "x[%ld]={") [1; 2; 3] 0 3 EmptyString
                   (Some "};") None None example_trie_bad_width "t"
                   UPRV_TARGET_SYNTAX_TOML _ _ _ _ _ _ _));
    try lia; discriminate.
Defined.

Lemma usrc_writeStringAsASCII_escapes_witness :
  usrc_writeStringAsASCII true ascii_isUnprintable ascii_escapeUnprintable
                          stdio0 [97; 98; 99] 3 UPRV_TARGET_SYNTAX_TOML
  = Returned (fputs (DQUOTE ++ "abc" ++ DQUOTE) stdio0).
Proof.
  apply (usrc_writeStringAsASCII_escapes
           true ascii_isUnprintable ascii_escapeUnprintable stdio0
           [97; 34; 98] 3 UPRV_TARGET_SYNTAX_TOML [97] [98]
           ascii_isUnprintable_beyond ascii_isUnprintable_printable
           ascii_escapeUnprintable_no_quote).
Defined.

Lemma usrc_writeUnicodeSet_ranges_then_strings_witness :
  usrc_writeUnicodeSet true ascii_isUnprintable ascii_escapeUnprintable stdio0
    [set_range 0x41 0x5A; set_range 0x61 0x7A; set_string [99; 104]]
    UPRV_TARGET_SYNTAX_TOML
  = Returned
      (fputs (set_header ++ "ranges = [" ++ LF
              ++ "  [0x41, 0x5a]," ++ LF
              ++ "  [0x61, 0x7a]," ++ LF
              ++ "]" ++ LF
              ++ "strings = [" ++ LF
              ++ "  " ++ DQUOTE ++ "ch" ++ DQUOTE ++ "," ++ LF
              ++ "]" ++ LF)
             stdio0).
Proof.
  exact (proj1 (usrc_writeUnicodeSet_ranges_then_strings
                  true ascii_isUnprintable ascii_escapeUnprintable stdio0
                  [(0x41, 0x5A); (0x61, 0x7A)] [[99; 104]]
                  ascii_isUnprintable_beyond)).
Defined.

Lemma usrc_writeUCPMap_covers_witness :
  exists entries,
    usrc_writeUCPMap true (Z.to_nat 0x110001) stdio0 two_ranges None
                     UPRV_TARGET_SYNTAX_TOML
    = Some (Returned
              (fputs (map_header ++ ("ranges = [" ++ LF)
                      ++ flatten (map (entry_text None) entries)
                      ++ "]" ++ LF) stdio0)) /\
    range_cover 0 entries 0x10FFFF /\
    Forall (fun e => ucpmap_getRange two_ranges (fst (fst e))
                     = (snd (fst e), snd e)) entries /\
    forall c, 0 <= c <= 0x10FFFF -> covering c entries = 1.
Proof.
  apply (usrc_writeUCPMap_covers true (Z.to_nat 0x110001) stdio0 two_ranges None
           two_ranges_total two_ranges_exhausted).
  lia.
Defined.

(** ** Where the code differs from the specification's wording *)

(** A negative element of a 64-bit array is at most 9, and is written with
    a sign and not as a plain decimal digit; next to a value above 9 the
    file holds the signed decimal and the hexadecimal literal. *)
Lemma usrc_writeArray_negative_value_counterexample :
  usrc_writeArray_value [-1] 64 0 <= 9 /\
  f (usrc_writeArray stdio0 None [-1] 64 1 EmptyString None) = "-1" /\
  f (usrc_writeArray stdio0 None [-1] 64 1 EmptyString None)
  <> decimal_digit (usrc_writeArray_value [-1] 64 0) /\
  f (usrc_writeArray stdio0 None [-1; 255] 64 2 EmptyString None) = "-1,0xff".
Proof.
  split; [| split; [| split]].
  - vm_compute. discriminate.
  - vm_compute. reflexivity.
  - vm_compute. discriminate.
  - vm_compute. reflexivity.
Qed.

(** On a syntax value that is neither enumerator the struct emission and
    the array emission return, with the TOML lines and with the elements
    written. *)
Lemma usrc_writeUCPTrieStruct_other_syntax_counterexample :
  usrc_writeUCPTrieStruct stdio0 None example_trie EmptyString EmptyString None
                          (UPRV_TARGET_SYNTAX_other 2)
  = mkStdio ("indexLength = 3" ++ LF ++ "dataLength = 3" ++ LF
             ++ "highStart = 0x110000" ++ LF
             ++ "shifted12HighStart = 0x110" ++ LF
             ++ "type = 0" ++ LF ++ "valueWidth = 1" ++ LF
             ++ "index3NullOffset = 0x7fff" ++ LF
             ++ "dataNullOffset = 0xfffff" ++ LF
             ++ "nullValue = 0xffffffff" ++ LF)
            EmptyString /\
  usrc_writeUCPTrieArrays stdio0 None None example_trie None
                          (UPRV_TARGET_SYNTAX_other 2)
  = mkStdio "1,2,0x12c5,6,0x11170" EmptyString.
Proof. split; vm_compute; reflexivity. Qed.

(** * More properties *)

(** ** The numeric array writer in closed form *)

Lemma sprintf_array_element (p : list Z) (width k : Z) :
  sprintf (if usrc_writeArray_value p width k <=? 9
           then "%" ++ PRId64 else "0x%" ++ PRIx64)
          [Int (usrc_writeArray_value p width k)]
  = array_element_text p width k.
Proof.
  unfold array_element_text.
  destruct (usrc_writeArray_value_range p width k) as (Hr & _).
  set (value := usrc_writeArray_value p width k) in *.
  rewrite sprintf_array_value. unfold LONG_BITS.
  rewrite to_signed_64_id by exact Hr.
  destruct (Z.ltb_spec value 0) as [Hn | Hn].
  - replace (value <=? 9) with true by (symmetry; apply Z.leb_le; lia).
    now apply dec_negative.
  - destruct (Z.leb_spec value 9) as [H9 | H9].
    + apply dec_digit. lia.
    + rewrite to_unsigned_id; [reflexivity |].
      change (2 ^ 64) with 18446744073709551616.
      change (2 ^ 63) with 9223372036854775808 in Hr. lia.
Qed.

Lemma array_body_text_S p width indent (n : nat) :
  array_body_text p width indent (S n)
  = array_body_text p width indent n
    ++ array_separator_text indent (Z.of_nat n)
    ++ array_element_text p width (Z.of_nat n).
Proof.
  unfold array_body_text. rewrite seq_S, map_app, flatten_app.
  cbn [map flatten Nat.add]. now rewrite append_nil_r.
Qed.

Lemma usrc_writeArray_loop_closed p width indent io (n : nat) :
  let s := usrc_writeArray_loop p width indent n io in
  a_col s = (if Z.of_nat n =? 0 then 0 else (Z.of_nat n - 1) mod 16 + 1) /\
  a_io s = fputs (array_body_text p width indent n) io.
Proof.
  induction n as [| n IH].
  - cbn. now rewrite fputs_nil.
  - cbv zeta in IH |- *. destruct IH as (Ec & Eio).
    pose proof (usrc_writeArray_loop_i p width indent io n) as Ei.
    rewrite usrc_writeArray_loop_S, array_body_text_S.
    set (s := usrc_writeArray_loop p width indent n io) in *.
    unfold usrc_writeArray_body, usrc_writeArray_separator, array_separator_text.
    rewrite Ei, Ec, Eio.
    replace (Z.of_nat (S n) =? 0) with false by (symmetry; apply Z.eqb_neq; lia).
    replace (Z.of_nat (S n) - 1) with (Z.of_nat n) by lia.
    destruct (Z.eqb_spec (Z.of_nat n) 0) as [E0 | E0].
    + rewrite E0. cbn [Z.ltb Z.compare a_col a_io].
      rewrite <- E0 at 1 2. rewrite fprintf_fputs, sprintf_array_element.
      rewrite fputs_fputs. split; [| reflexivity].
      Z.div_mod_to_equations; lia.
    + replace (0 <? Z.of_nat n) with true by (symmetry; apply Z.ltb_lt; lia).
      destruct (Z.ltb_spec ((Z.of_nat n - 1) mod 16 + 1) 16) as [Hc | Hc].
      * replace (Z.of_nat n mod 16 =? 0) with false
          by (symmetry; apply Z.eqb_neq; Z.div_mod_to_equations; lia).
        cbn [a_col a_io]. rewrite fprintf_fputs, sprintf_array_element.
        change (fputc "," (fputs (array_body_text p width indent n) io))
          with (fputs "," (fputs (array_body_text p width indent n) io)).
        rewrite !fputs_fputs. split; [| reflexivity].
        Z.div_mod_to_equations; lia.
      * replace (Z.of_nat n mod 16 =? 0) with true
          by (symmetry; apply Z.eqb_eq; Z.div_mod_to_equations; lia).
        cbn [a_col a_io]. rewrite fprintf_fputs, sprintf_array_element.
        rewrite !fputs_fputs. split; [| reflexivity].
        Z.div_mod_to_equations; lia.
Qed.

(** X1. For a recognized width the numeric array writer leaves [stderr] as
    it is and appends to [f] the prefix with the length in it, then for
    each index below the length the separator (nothing before the first
    element, comma, newline and indent before every sixteenth, a comma
    otherwise) and the element as a literal, then the postfix; what it
    appends does not depend on what the file held. *)
Theorem usrc_writeArray_closed_form
  (io : stdio) (prefix : option string) (p : list Z) (width length : Z)
  (indent : string) (postfix : option string) :
  recognized_width width = true ->
  usrc_writeArray io prefix p width length indent postfix
  = mkStdio (f io ++ prefix_text prefix length
             ++ array_body_text p width indent (Z.to_nat length)
             ++ opt_text postfix)
            (stderr io).
Proof.
  intros Hw. unfold usrc_writeArray. rewrite Hw. cbn [negb].
  destruct (usrc_writeArray_loop_closed p width indent
              (fprintf_opt prefix [Int length] io) (Z.to_nat length))
    as (_ & Eio).
  rewrite Eio. destruct prefix, postfix; cbn [fprintf_opt fputs_opt];
    rewrite ?fprintf_fputs, ?fputs_fputs; unfold fputs, prefix_text, opt_text;
    cbn [f stderr]; rewrite ?append_nil_r; reflexivity.
Qed.

(** ** The literals denote the elements *)

Lemma literal_value_dec (v : Z) :
  v < 0 \/ (exists k : nat, (k < 10)%nat /\ v = Z.of_nat k) ->
  literal_value (dec v) = Some v.
Proof.
  intros [Hn | (k & Hk & ->)].
  - destruct v as [| q | q]; try lia.
    change (dec (Z.neg q))
      with (DecimalString.NilZero.string_of_int (Decimal.Neg (Pos.to_uint q))).
    change (literal_value
              (DecimalString.NilZero.string_of_int (Decimal.Neg (Pos.to_uint q))))
      with (option_map Z.of_int
              (DecimalString.NilZero.int_of_string
                 (DecimalString.NilZero.string_of_int
                    (Decimal.Neg (Pos.to_uint q))))).
    rewrite DecimalString.NilZero.isi.
    + cbn [option_map]. f_equal. apply (DecimalZ.of_to (Z.neg q)).
    + discriminate.
    + intros [= E]. now apply DecimalPos.Unsigned.to_uint_nonnil in E.
  - do 10 (destruct k as [| k]; [reflexivity |]). lia.
Qed.

Lemma literal_value_hex (v : Z) :
  0 < v -> literal_value ("0x" ++ hex v) = Some v.
Proof.
  intros Hv. destruct v as [| q | q]; try lia.
  change (literal_value ("0x" ++ hex (Z.pos q)))
    with (option_map (fun u => Z.of_N (N.of_hex_uint u))
            (HexadecimalString.NilZero.uint_of_string
               (HexadecimalString.NilZero.string_of_uint (Pos.to_hex_uint q)))).
  rewrite HexadecimalString.NilZero.usu
    by apply HexadecimalPos.Unsigned.to_uint_nonnil.
  cbn [option_map]. f_equal.
  change (Pos.to_hex_uint q) with (N.to_hex_uint (N.pos q)).
  now rewrite HexadecimalN.Unsigned.of_to.
Qed.

Lemma usrc_writeArray_fputs io prefix p width length indent postfix :
  recognized_width width = true ->
  usrc_writeArray io prefix p width length indent postfix
  = fputs (prefix_text prefix length
           ++ array_body_text p width indent (Z.to_nat length)
           ++ opt_text postfix) io.
Proof.
  intros Hw. unfold usrc_writeArray. rewrite Hw. cbn [negb].
  destruct (usrc_writeArray_loop_closed p width indent
              (fprintf_opt prefix [Int length] io) (Z.to_nat length))
    as (_ & Eio).
  rewrite Eio. destruct prefix, postfix; cbn [fprintf_opt fputs_opt];
    rewrite ?fprintf_fputs, ?fputs_fputs; unfold prefix_text, opt_text;
    rewrite ?append_nil_r; reflexivity.
Qed.

(** X3. A length that is zero or negative is no error: for a recognized
    width the writer writes the prefix and the postfix with no element
    between them, and nothing to [stderr]. *)
Theorem usrc_writeArray_no_elements
  (io : stdio) (prefix : option string) (p : list Z) (width length : Z)
  (indent : string) (postfix : option string) :
  recognized_width width = true ->
  length <= 0 ->
  usrc_writeArray io prefix p width length indent postfix
  = fputs_opt postfix (fprintf_opt prefix [Int length] io).
Proof.
  intros Hw Hl. unfold usrc_writeArray. rewrite Hw. cbn [negb].
  replace (Z.to_nat length) with 0%nat by lia. reflexivity.
Qed.

(** ** usrc_writeUTrie2Arrays *)

(** X4. The arrays of a two-level trie are written with no diagnostic: a
    trie with 16-bit data is one array of [indexLength + dataLength]
    elements read from the index (the prefix for the 32-bit data is not
    used), and a trie with 32-bit data is the index array followed by the
    data array, each with its own prefix and each closed by the postfix. *)
Theorem usrc_writeUTrie2Arrays_closed_form
  (io : stdio) (indexPrefix data32Prefix : option string) (pTrie : UTrie2)
  (postfix : option string) :
  usrc_writeUTrie2Arrays io indexPrefix data32Prefix pTrie postfix
  = mkStdio
      (f io
       ++ match trie2_data32 pTrie with
          | None =>
            prefix_text indexPrefix
                        (trie2_indexLength pTrie + trie2_dataLength pTrie)
            ++ array_body_text (trie2_index pTrie) 16 EmptyString
                 (Z.to_nat (trie2_indexLength pTrie + trie2_dataLength pTrie))
            ++ opt_text postfix
          | Some data32 =>
            (prefix_text indexPrefix (trie2_indexLength pTrie)
             ++ array_body_text (trie2_index pTrie) 16 EmptyString
                  (Z.to_nat (trie2_indexLength pTrie))
             ++ opt_text postfix)
            ++ prefix_text data32Prefix (trie2_dataLength pTrie)
            ++ array_body_text data32 32 EmptyString
                 (Z.to_nat (trie2_dataLength pTrie))
            ++ opt_text postfix
          end)
      (stderr io).
Proof.
  unfold usrc_writeUTrie2Arrays. destruct (trie2_data32 pTrie) as [data32 |].
  - rewrite !usrc_writeArray_fputs by reflexivity. now rewrite fputs_fputs.
  - now rewrite usrc_writeArray_fputs by reflexivity.
Qed.

(** ** The lines of the byte array writer *)

Lemma line_fill_bounds (p : list Z) (k : nat) :
  0 <= line_fill p k <= 32 /\ ((0 < k)%nat -> 1 <= line_fill p k).
Proof.
  induction k as [| k [IH _]]; [cbn; lia |].
  cbn [line_fill]. cbv zeta.
  destruct (Z.ltb_spec 0 (Z.of_nat k)) as [Hk | Hk]; cbn [andb].
  - destruct (line_break_rule _ _ _ _) eqn:Er; [lia |].
    unfold line_break_rule in Er.
    destruct (Z.leb_spec 32 (line_fill p k)); [discriminate | lia].
  - replace k with 0%nat by lia. cbn. lia.
Qed.

(** X5. No line of the byte array writer holds more than 32 elements, and
    no line is broken before it holds 16: at the head of every turn the
    column is at most 32, and the test that breaks the line holds only
    from column 16 on. *)
Theorem usrc_writeArrayOfMostlyInvChars_line_bounds
  (p : list Z) (io : stdio) (k : nat) :
  let s := usrc_writeArrayOfMostlyInvChars_loop p k io in
  0 <= c_col s <= 32 /\
  forall c, usrc_writeArrayOfMostlyInvChars_break
              (c_col s) (c_prev2 s) (c_prev s) c = true ->
            16 <= c_col s.
Proof.
  intros s.
  destruct (usrc_writeArrayOfMostlyInvChars_loop_invariant p io k)
    as (_ & Ec & _). fold s in Ec. rewrite Ec.
  split; [apply line_fill_bounds |].
  intros c. unfold usrc_writeArrayOfMostlyInvChars_break.
  destruct (Z.leb_spec 32 (line_fill p k)), (Z.leb_spec 24 (line_fill p k)),
    (Z.leb_spec 16 (line_fill p k)); cbn [orb andb]; try lia; discriminate.
Qed.

Lemma usrc_writeArrayOfMostlyInvChars_body_appends (p : list Z)
  (i col prev2 prev : Z) :
  exists t col',
    forall io,
      usrc_writeArrayOfMostlyInvChars_body p (mkCharsLoop i col prev2 prev io)
      = mkCharsLoop (i + 1) col' prev (byte p i) (fputs t io).
Proof.
  unfold usrc_writeArrayOfMostlyInvChars_body,
    usrc_writeArrayOfMostlyInvChars_separator.
  cbn [c_i c_col c_prev2 c_prev c_io]. fold (byte p i).
  destruct (0 <? i);
    [destruct (usrc_writeArrayOfMostlyInvChars_break col prev2 prev (byte p i)) |];
    eexists; eexists; intros io; rewrite fprintf_fputs;
    try (change (fputc "," io) with (fputs "," io));
    rewrite ?fputs_fputs; reflexivity.
Qed.

Lemma usrc_writeArrayOfMostlyInvChars_loop_appends (p : list Z) (n : nat) :
  exists t i col prev2 prev,
    forall io,
      usrc_writeArrayOfMostlyInvChars_loop p n io
      = mkCharsLoop i col prev2 prev (fputs t io).
Proof.
  induction n as [| n (t & i & col & prev2 & prev & IH)].
  - exists EmptyString, 0, 0, (-1), (-1). intros io. now rewrite fputs_nil.
  - destruct (usrc_writeArrayOfMostlyInvChars_body_appends p i col prev2 prev)
      as (t' & col' & Hb).
    exists (t ++ t'), (i + 1), col', prev, (byte p i). intros io.
    now rewrite usrc_writeArrayOfMostlyInvChars_loop_S, IH, Hb, fputs_fputs.
Qed.

(** X6. What the byte array writer appends does not depend on what the
    streams hold: the file after the call is the file before it followed
    by what the call writes to an empty file, and [stderr] is as it was. *)
Theorem usrc_writeArrayOfMostlyInvChars_appends
  (io : stdio) (prefix : option string) (p : list Z) (length : Z)
  (postfix : option string) :
  usrc_writeArrayOfMostlyInvChars io prefix p length postfix
  = mkStdio
      (f io ++ f (usrc_writeArrayOfMostlyInvChars stdio0 prefix p length postfix))
      (stderr io).
Proof.
  unfold usrc_writeArrayOfMostlyInvChars.
  destruct (usrc_writeArrayOfMostlyInvChars_loop_appends p (Z.to_nat length))
    as (t & i & col & prev2 & prev & H).
  rewrite !H. cbn [c_io].
  destruct prefix, postfix; cbn [fprintf_opt fputs_opt];
    rewrite ?fprintf_fputs, ?fputs_fputs; unfold fputs, stdio0;
    cbn [f stderr append]; reflexivity.
Qed.

(** ** Text in the byte array writer *)

Lemma sprintf_byte (c : Z) :
  0 <= c < 256 ->
  sprintf (if c <? 0x20 then "%u" else "'%c'") [Int c]
  = if c <? 0x20 then dec c
    else "'" ++ String (ascii_of_N (Z.to_N c)) EmptyString ++ "'".
Proof.
  intros Hc. destruct (c <? 32).
  - cbv [sprintf]. cbn. rewrite append_nil_r.
    unfold INT_BITS. rewrite to_unsigned_id; [reflexivity |].
    change (2 ^ 32) with 4294967296. lia.
  - cbv [sprintf]. cbn.
    rewrite to_unsigned_id; [reflexivity |]. change (2 ^ 8) with 256. lia.
Qed.

Lemma count_newline_char_literal (c : Z) :
  0x20 <= c < 256 ->
  count_char "010" ("'" ++ String (ascii_of_N (Z.to_N c)) EmptyString ++ "'") = 0.
Proof.
  intros Hc. cbn [append count_char].
  replace (Ascii.eqb (ascii_of_N (Z.to_N c)) "010") with false; [reflexivity |].
  symmetry. apply Ascii.eqb_neq. intros E.
  apply (f_equal N_of_ascii) in E. rewrite ascii_of_small in E by lia.
  cbn in E. lia.
Qed.

Lemma text_break (col prev2 prev c : Z) :
  0x20 <= prev -> 0x20 <= c ->
  usrc_writeArrayOfMostlyInvChars_break col prev2 prev c = (32 <=? col).
Proof.
  intros Hp Hc. unfold usrc_writeArrayOfMostlyInvChars_break.
  replace (prev =? 0) with false by (symmetry; apply Z.eqb_neq; lia).
  replace (c <? 32) with false by (symmetry; apply Z.ltb_ge; lia).
  now rewrite !andb_false_r, !orb_false_r.
Qed.

Lemma text_line_fill (p : list Z) (n : nat) :
  (forall j, 0 <= j < Z.of_nat n -> 0x20 <= byte p j) ->
  forall k : nat, (k <= n)%nat ->
    line_fill p k
    = if Z.of_nat k =? 0 then 0 else (Z.of_nat k - 1) mod 32 + 1.
Proof.
  intros H. induction k as [| k IH]; intros Hk; [reflexivity |].
  specialize (IH ltac:(lia)).
  cbn [line_fill]. cbv zeta. rewrite line_break_rule_break.
  replace (Z.of_nat (S k) =? 0) with false by (symmetry; apply Z.eqb_neq; lia).
  replace (Z.of_nat (S k) - 1) with (Z.of_nat k) by lia.
  destruct (Z.ltb_spec 0 (Z.of_nat k)) as [H0 | H0]; cbn [andb].
  - rewrite text_break.
    + rewrite IH.
      replace (Z.of_nat k =? 0) with false by (symmetry; apply Z.eqb_neq; lia).
      destruct (Z.leb_spec 32 ((Z.of_nat k - 1) mod 32 + 1));
        Z.div_mod_to_equations; lia.
    + unfold byte_before.
      replace (1 <=? Z.of_nat k) with true by (symmetry; apply Z.leb_le; lia).
      apply H. lia.
    + apply H. lia.
  - rewrite IH. replace (Z.of_nat k) with 0 by lia. reflexivity.
Qed.

Lemma text_newlines (p : list Z) (n : nat) (io : stdio) :
  (forall j, 0 <= j < Z.of_nat n -> 0x20 <= byte p j) ->
  forall k : nat, (k <= n)%nat ->
    count_char "010" (f (c_io (usrc_writeArrayOfMostlyInvChars_loop p k io)))
    = count_char "010" (f io)
      + (if Z.of_nat k =? 0 then 0 else (Z.of_nat k - 1) / 32).
Proof.
  intros H. induction k as [| k IH]; intros Hk; [cbn; lia |].
  specialize (IH ltac:(lia)).
  rewrite usrc_writeArrayOfMostlyInvChars_loop_S.
  destruct (usrc_writeArrayOfMostlyInvChars_loop_invariant p io k)
    as (Ei & Ec & Ep & Ep2).
  set (s := usrc_writeArrayOfMostlyInvChars_loop p k io) in *.
  unfold usrc_writeArrayOfMostlyInvChars_body,
    usrc_writeArrayOfMostlyInvChars_separator.
  rewrite Ei, Ec, Ep, Ep2. fold (byte p (Z.of_nat k)).
  pose proof (H (Z.of_nat k) ltac:(lia)) as Hc.
  pose proof (byte_range p (Z.of_nat k)) as Hr.
  replace (Z.of_nat (S k) =? 0) with false by (symmetry; apply Z.eqb_neq; lia).
  replace (Z.of_nat (S k) - 1) with (Z.of_nat k) by lia.
  assert (Et : forall io',
             count_char "010"
               (f (fprintf (if byte p (Z.of_nat k) <? 32 then "%u" else "'%c'")
                           [Int (byte p (Z.of_nat k))] io'))
             = count_char "010" (f io')).
  { intros io'. cbn [fprintf f]. rewrite sprintf_byte by exact Hr.
    replace (byte p (Z.of_nat k) <? 32) with false
      by (symmetry; apply Z.ltb_ge; lia).
    rewrite count_char_app, count_newline_char_literal by lia. lia. }
  destruct (Z.ltb_spec 0 (Z.of_nat k)) as [H0 | H0].
  - rewrite text_break.
    + rewrite (text_line_fill p n H k) by lia.
      replace (Z.of_nat k =? 0) with false in * by (symmetry; apply Z.eqb_neq; lia).
      destruct (Z.leb_spec 32 ((Z.of_nat k - 1) mod 32 + 1));
        cbn [c_io]; rewrite Et; cbn [fputs fputc f];
        rewrite count_char_app, IH; cbn; Z.div_mod_to_equations; lia.
    + unfold byte_before.
      replace (1 <=? Z.of_nat k) with true by (symmetry; apply Z.leb_le; lia).
      apply H. lia.
    + exact Hc.
  - cbn [c_io]. rewrite Et, IH.
    replace (Z.of_nat k) with 0 by lia. reflexivity.
Qed.

(** X7. A byte array of text, all bytes from 0x20 up, is wrapped by the
    hard limit alone: the writer adds exactly [(length - 1) / 32] line
    breaks, one before each of the elements 32, 64, ... . *)
Theorem usrc_writeArrayOfMostlyInvChars_text_lines
  (io : stdio) (prefix : option string) (p : list Z) (length : Z)
  (postfix : option string) :
  0 < length ->
  (forall j, 0 <= j < length -> 0x20 <= byte p j) ->
  count_char "010"
    (f (usrc_writeArrayOfMostlyInvChars io prefix p length postfix))
  = count_char "010" (f (fprintf_opt prefix [Int length] io))
    + (length - 1) / 32
    + count_char "010" (opt_text postfix) /\
  forall k : nat, (0 < Z.of_nat k < length) ->
    c_col (usrc_writeArrayOfMostlyInvChars_loop p k
             (fprintf_opt prefix [Int length] io))
    = (Z.of_nat k - 1) mod 32 + 1.
Proof.
  intros Hl H. unfold usrc_writeArrayOfMostlyInvChars.
  assert (H' : forall j, 0 <= j < Z.of_nat (Z.to_nat length) -> 32 <= byte p j)
    by (intros j Hj; apply H; lia).
  split.
  - rewrite f_fputs_opt, count_char_app.
    rewrite (text_newlines p (Z.to_nat length) _ H' (Z.to_nat length))
      by lia.
    rewrite Z2Nat.id by lia.
    now replace (length =? 0) with false by (symmetry; apply Z.eqb_neq; lia).
  - intros k Hk.
    destruct (usrc_writeArrayOfMostlyInvChars_loop_invariant p
                (fprintf_opt prefix [Int length] io) k) as (_ & Ec & _).
    rewrite Ec, (text_line_fill p (Z.to_nat length) H' k) by lia.
    now replace (Z.of_nat k =? 0) with false by (symmetry; apply Z.eqb_neq; lia).
Qed.

(** ** More on the string escaper *)

Lemma all_ascii_app (a b : string) :
  all_ascii (a ++ b) = all_ascii a && all_ascii b.
Proof. induction a; cbn [append all_ascii]; [| rewrite IHa, andb_assoc]; reflexivity. Qed.

Lemma all_ascii_char_string (cp : Z) :
  0 <= cp < 0x80 -> all_ascii (char_string cp) = true.
Proof.
  intros H. destruct (Z.eq_dec cp 0) as [-> | H0]; [reflexivity |].
  rewrite char_string_ascii by lia. cbn [all_ascii].
  rewrite ascii_of_small by lia.
  replace (Z.to_N cp <? 128)%N with true; [reflexivity |].
  symmetry. apply N.ltb_lt. lia.
Qed.

Section EscaperMore.

Variable isUnprintable : Z -> bool.
Variable escapeUnprintable : Z -> string.

Local Abbreviation cp_text := (code_point_text isUnprintable escapeUnprintable).
Local Abbreviation text := (string_text isUnprintable escapeUnprintable).

Lemma text_all_ascii (s : list Z) :
  (forall cp, 0x80 <= cp -> isUnprintable cp = true) ->
  (forall cp, all_ascii (escapeUnprintable cp) = true) ->
  all_ascii (text s) = true.
Proof.
  intros Hu He. unfold string_text.
  pose proof (U16_decode_nonneg s) as Hn.
  induction Hn as [| cp l Hcp _ IH]; [reflexivity |].
  cbn [map flatten]. rewrite all_ascii_app, IH, andb_true_r.
  unfold code_point_text.
  destruct (cp =? 34); [reflexivity |].
  destruct (isUnprintable cp) eqn:Eu; [apply He |].
  apply all_ascii_char_string.
  destruct (Z.lt_ge_cases cp 128) as [Hlt | Hge]; [lia |].
  apply Hu in Hge. congruence.
Qed.

Lemma usrc_writeStringAsASCII_cp_aborts (cp : Z) (io : stdio) :
  0x80 <= cp -> isUnprintable cp = false ->
  usrc_writeStringAsASCII_cp true isUnprintable escapeUnprintable cp io
  = Aborted io.
Proof.
  intros Hcp Hu. unfold usrc_writeStringAsASCII_cp, U_ASSERT.
  replace (cp =? 34) with false by (symmetry; apply Z.eqb_neq; lia).
  rewrite Hu.
  now replace (cp <? 128) with false by (symmetry; apply Z.ltb_ge; lia).
Qed.

Lemma usrc_writeStringAsASCII_loop_aborts (bad : Z) (s : list Z) :
  0x80 <= bad -> isUnprintable bad = false ->
  In bad (U16_decode s) ->
  forall io, exists io',
    usrc_writeStringAsASCII_loop true isUnprintable escapeUnprintable s io
    = Aborted io'.
Proof.
  intros Hb Hu.
  assert (Step : forall cp rest io,
             (cp = bad \/
              forall io1, exists io',
                usrc_writeStringAsASCII_loop true isUnprintable
                  escapeUnprintable rest io1 = Aborted io') ->
             exists io',
               bind (usrc_writeStringAsASCII_cp true isUnprintable
                       escapeUnprintable cp io)
                    (fun io =>
                       usrc_writeStringAsASCII_loop true isUnprintable
                         escapeUnprintable rest io)
               = Aborted io').
  { intros cp rest io [-> | Hrest].
    - rewrite usrc_writeStringAsASCII_cp_aborts by trivial. now exists io.
    - destruct (usrc_writeStringAsASCII_cp true isUnprintable
                  escapeUnprintable cp io) as [io1 | io1]; cbn [bind].
      + apply Hrest.
      + now exists io1. }
  induction s as [| c _ | c c2 r IH1 IH2] using U16_list_ind; intros Hin io.
  - destruct Hin.
  - cbn [U16_decode In] in Hin. destruct Hin as [E | []].
    change (exists io',
               bind (usrc_writeStringAsASCII_cp true isUnprintable
                       escapeUnprintable (to_unsigned 16 c) io)
                    (fun io =>
                       usrc_writeStringAsASCII_loop true isUnprintable
                         escapeUnprintable [] io)
               = Aborted io').
    apply Step. now left.
  - change (U16_decode (c :: c2 :: r)) with
      (if U16_IS_LEAD (to_unsigned 16 c) && U16_IS_TRAIL (to_unsigned 16 c2)
       then U16_GET_SUPPLEMENTARY (to_unsigned 16 c) (to_unsigned 16 c2)
            :: U16_decode r
       else to_unsigned 16 c :: U16_decode (c2 :: r)) in Hin.
    change (exists io',
               (if U16_IS_LEAD (to_unsigned 16 c)
                   && U16_IS_TRAIL (to_unsigned 16 c2)
                then
                  bind (usrc_writeStringAsASCII_cp true isUnprintable
                          escapeUnprintable
                          (U16_GET_SUPPLEMENTARY (to_unsigned 16 c)
                                                 (to_unsigned 16 c2)) io)
                       (fun io =>
                          usrc_writeStringAsASCII_loop true isUnprintable
                            escapeUnprintable r io)
                else
                  bind (usrc_writeStringAsASCII_cp true isUnprintable
                          escapeUnprintable (to_unsigned 16 c) io)
                       (fun io =>
                          usrc_writeStringAsASCII_loop true isUnprintable
                            escapeUnprintable (c2 :: r) io))
               = Aborted io').
    destruct (U16_IS_LEAD (to_unsigned 16 c) && U16_IS_TRAIL (to_unsigned 16 c2));
      destruct Hin as [E | Hin]; apply Step; auto.
Qed.

End EscaperMore.

(** X8. What the string escaper writes is ASCII: when the classifier
    leaves no code point beyond ASCII to be written as it is and the
    escapes are ASCII, every character of the literal is below 0x80. *)
Theorem usrc_writeStringAsASCII_all_ascii
  (U_DEBUG : bool) (isUnprintable : Z -> bool) (escapeUnprintable : Z -> string)
  (io : stdio) (ptr : list Z) (length : Z) (syntax : UTargetSyntax) :
  (forall cp, 0x80 <= cp -> isUnprintable cp = true) ->
  (forall cp, all_ascii (escapeUnprintable cp) = true) ->
  exists t,
    usrc_writeStringAsASCII U_DEBUG isUnprintable escapeUnprintable io ptr
                            length syntax
    = Returned (fputs t io) /\
    all_ascii t = true.
Proof.
  intros Hu He.
  exists (DQUOTE
          ++ string_text isUnprintable escapeUnprintable
               (firstn (Z.to_nat length) ptr)
          ++ DQUOTE).
  split; [now apply usrc_writeStringAsASCII_text |].
  rewrite !all_ascii_app, text_all_ascii by trivial. reflexivity.
Qed.

(** X9. With assertions compiled in, a string that holds a code point
    beyond ASCII which the classifier does not call unprintable aborts the
    run: the call does not return, whatever else the string holds. *)
Theorem usrc_writeStringAsASCII_asserts
  (isUnprintable : Z -> bool) (escapeUnprintable : Z -> string)
  (io : stdio) (ptr : list Z) (length : Z) (syntax : UTargetSyntax) (cp : Z) :
  In cp (U16_decode (firstn (Z.to_nat length) ptr)) ->
  0x80 <= cp ->
  isUnprintable cp = false ->
  exists io',
    usrc_writeStringAsASCII true isUnprintable escapeUnprintable io ptr length
                            syntax
    = Aborted io'.
Proof.
  intros Hin Hcp Hu. unfold usrc_writeStringAsASCII.
  destruct (usrc_writeStringAsASCII_loop_aborts
              isUnprintable escapeUnprintable cp
              (firstn (Z.to_nat length) ptr) Hcp Hu Hin
              (fprintf DQUOTE [] io)) as [io' E].
  exists io'. now rewrite E.
Qed.

(** ** More on the range set and the range value map *)

Section RangeSetMore.

Variable U_DEBUG : bool.
Variable isUnprintable : Z -> bool.
Variable escapeUnprintable : Z -> string.

Local Abbreviation write_set_loop :=
  (usrc_writeUnicodeSet_loop U_DEBUG isUnprintable escapeUnprintable).
Local Abbreviation entry := (string_entry isUnprintable escapeUnprintable).

Lemma usrc_writeUnicodeSet_loop_syntax (it : list set_item) :
  forall (seen : bool) (syntax syntax' : UTargetSyntax) (io : stdio),
    write_set_loop it seen syntax io = write_set_loop it seen syntax' io.
Proof.
  induction it as [| [a b | str] it IH]; intros seen syntax syntax' io.
  - reflexivity.
  - cbn [usrc_writeUnicodeSet_loop].
    destruct (U_ASSERT U_DEBUG (negb seen) io); cbn [bind]; [apply IH | reflexivity].
  - cbn [usrc_writeUnicodeSet_loop].
    change (usrc_writeStringAsASCII U_DEBUG isUnprintable escapeUnprintable
              ?io' str ?n syntax)
      with (usrc_writeStringAsASCII U_DEBUG isUnprintable escapeUnprintable
              io' str n syntax').
    destruct (usrc_writeStringAsASCII _ _ _ _ _ _ _); cbn [bind];
      [apply IH | reflexivity].
Qed.

Hypothesis unprintable_beyond_ascii :
  forall cp, 0x80 <= cp -> isUnprintable cp = true.

Lemma usrc_writeUnicodeSet_loop_strings_then (strings : list (list Z)) :
  forall (rest : list set_item) (seen : bool) (syntax : UTargetSyntax)
         (io : stdio),
    write_set_loop (map set_string strings ++ rest)%list seen syntax io
    = write_set_loop rest
        (match strings with [] => seen | _ => true end) syntax
        (fputs ((if seen then EmptyString
                 else match strings with
                      | [] => EmptyString
                      | _ => strings_opener
                      end)
                ++ flatten (map entry strings)) io).
Proof.
  induction strings as [| s strings IH]; intros rest seen syntax io.
  - destruct seen; cbn; now rewrite fputs_nil.
  - cbn [map app usrc_writeUnicodeSet_loop].
    rewrite (usrc_writeStringAsASCII_whole U_DEBUG isUnprintable
               escapeUnprintable unprintable_beyond_ascii).
    cbn [bind]. rewrite IH.
    replace (match strings with [] => true | _ :: _ => true end) with true
      by (now destruct strings).
    rewrite !fprintf_fputs, !fputs_fputs.
    destruct seen; cbn [negb]; rewrite ?fprintf_fputs, ?fputs_fputs;
      f_equal; f_equal; cbn [flatten]; unfold string_entry;
      rewrite ?append_assoc; reflexivity.
Qed.

End RangeSetMore.

(** X10. With assertions compiled in, a range that the iterator shows after
    a string aborts the run there: the ranges and the strings before it are
    written, the list is not closed. *)
Theorem usrc_writeUnicodeSet_range_after_string
  (isUnprintable : Z -> bool) (escapeUnprintable : Z -> string)
  (io : stdio) (ranges : list (Z * Z)) (s : list Z) (strings : list (list Z))
  (a b : Z) (rest : list set_item) :
  (forall cp, 0x80 <= cp -> isUnprintable cp = true) ->
  usrc_writeUnicodeSet true isUnprintable escapeUnprintable io
    (map range_item ranges ++ map set_string (s :: strings)
     ++ set_range a b :: rest)%list
    UPRV_TARGET_SYNTAX_TOML
  = Aborted
      (fputs
         (set_header ++ ("ranges = [" ++ LF)
          ++ flatten (map range_text ranges)
          ++ strings_opener
          ++ flatten (map (string_entry isUnprintable escapeUnprintable)
                          (s :: strings)))
         io).
Proof.
  intros H. unfold usrc_writeUnicodeSet, U_ASSERT. cbn [is_TOML negb andb bind].
  rewrite usrc_writeUnicodeSet_loop_ranges.
  rewrite usrc_writeUnicodeSet_loop_strings_then by exact H.
  cbn [usrc_writeUnicodeSet_loop]. unfold U_ASSERT. cbn [negb andb bind].
  rewrite !fprintf_fputs, !fputs_fputs. do 2 f_equal.
Qed.

(** X11. The syntax argument of the range set and range value map
    serializers is only asserted: with assertions compiled in, any value
    but the TOML one aborts before anything is written; without them the
    value is ignored and the output is the TOML output. *)
Theorem usrc_writeUnicodeSet_syntax_asserted
  (isUnprintable : Z -> bool) (escapeUnprintable : Z -> string)
  (io : stdio) (pSet : list set_item) (fuel : nat) (pMap : UCPMap)
  (valueNameGetter : option (Z -> string)) (syntax : UTargetSyntax) :
  syntax <> UPRV_TARGET_SYNTAX_TOML ->
  usrc_writeUnicodeSet true isUnprintable escapeUnprintable io pSet syntax
  = Aborted io /\
  usrc_writeUCPMap true fuel io pMap valueNameGetter syntax = Some (Aborted io) /\
  usrc_writeUnicodeSet false isUnprintable escapeUnprintable io pSet syntax
  = usrc_writeUnicodeSet false isUnprintable escapeUnprintable io pSet
                         UPRV_TARGET_SYNTAX_TOML /\
  usrc_writeUCPMap false fuel io pMap valueNameGetter syntax
  = usrc_writeUCPMap false fuel io pMap valueNameGetter UPRV_TARGET_SYNTAX_TOML.
Proof.
  intros Hs.
  assert (E : is_TOML syntax = false) by (destruct syntax; trivial; congruence).
  unfold usrc_writeUnicodeSet, usrc_writeUCPMap, U_ASSERT. rewrite E.
  cbn [is_TOML negb andb bind]. repeat split.
  now rewrite (usrc_writeUnicodeSet_loop_syntax false isUnprintable
                 escapeUnprintable pSet false syntax UPRV_TARGET_SYNTAX_TOML).
Qed.

Lemma usrc_writeUCPMap_loop_endless (pMap : UCPMap)
  (valueNameGetter : option (Z -> string)) :
  (forall start, 0 <= fst (ucpmap_getRange pMap start)) ->
  forall (fuel : nat) (start : Z) (io : stdio),
    usrc_writeUCPMap_loop fuel pMap valueNameGetter start io = None.
Proof.
  intros H. induction fuel as [| fuel IH]; intros start io; [reflexivity |].
  cbn [usrc_writeUCPMap_loop]. specialize (H start).
  destruct (ucpmap_getRange pMap start) as [end_ value]. cbn [fst] in H.
  replace (0 <=? end_) with true by (symmetry; apply Z.leb_le; lia).
  apply IH.
Qed.

(** X12. The loop of the range value map serializer ends only on a
    negative end: for a map whose range query never returns one (the ends
    staying below the largest [int32_t], so that [end + 1] is defined), the
    serializer does not return, whatever the number of turns allowed. *)
Theorem usrc_writeUCPMap_never_returns
  (U_DEBUG : bool) (fuel : nat) (io : stdio) (pMap : UCPMap)
  (valueNameGetter : option (Z -> string)) :
  (forall start, 0 <= fst (ucpmap_getRange pMap start) < 0x7FFFFFFF) ->
  usrc_writeUCPMap U_DEBUG fuel io pMap valueNameGetter UPRV_TARGET_SYNTAX_TOML
  = None.
Proof.
  intros H. unfold usrc_writeUCPMap, U_ASSERT. cbn [is_TOML negb].
  rewrite andb_false_r.
  now rewrite (usrc_writeUCPMap_loop_endless pMap valueNameGetter
                 (fun start => proj1 (H start))).
Qed.

Lemma usrc_writeUCPMap_loop_linked (pMap : UCPMap)
  (valueNameGetter : option (Z -> string)) (fuel : nat) :
  forall (start : Z) (io io' : stdio),
    usrc_writeUCPMap_loop fuel pMap valueNameGetter start io = Some io' ->
    exists entries,
      io' = fputs (flatten (map (entry_text valueNameGetter) entries)) io /\
      linked start entries /\
      Forall (fun e => ucpmap_getRange pMap (fst (fst e)) = (snd (fst e), snd e))
             entries /\
      fst (ucpmap_getRange pMap (linked_next start entries)) < 0.
Proof.
  induction fuel as [| fuel IH]; intros start io io' H; [discriminate |].
  cbn [usrc_writeUCPMap_loop] in H.
  destruct (ucpmap_getRange pMap start) as [end_ value] eqn:Eg.
  destruct (Z.leb_spec 0 end_) as [He | He].
  - apply IH in H. destruct H as (entries & E & Hl & Hg & Hn).
    exists ((start, end_, value) :: entries). repeat split; trivial.
    + rewrite E. cbn [map flatten].
      rewrite <- (sprintf_entry valueNameGetter start end_ value).
      destruct valueNameGetter; rewrite fprintf_fputs, fputs_fputs; reflexivity.
    + constructor; trivial.
  - injection H as <-. exists []. cbn [map flatten linked linked_next].
    rewrite fputs_nil, Eg. repeat split; trivial.
Qed.

(** X13. Whatever the map, when the range value map serializer returns,
    what it wrote is the header, one entry for each range the query
    returned, and the closing bracket; the first entry begins at code
    point 0, each next one right after the end of the one before, and the
    query was negative after the last.  (The ends are taken below the
    largest [int32_t], so that [end + 1] is defined.) *)
Theorem usrc_writeUCPMap_linked
  (U_DEBUG : bool) (fuel : nat) (io io' : stdio) (pMap : UCPMap)
  (valueNameGetter : option (Z -> string)) :
  (forall start, fst (ucpmap_getRange pMap start) < 0x7FFFFFFF) ->
  usrc_writeUCPMap U_DEBUG fuel io pMap valueNameGetter UPRV_TARGET_SYNTAX_TOML
  = Some (Returned io') ->
  exists entries,
    io' = fputs (map_header ++ ("ranges = [" ++ LF)
                 ++ flatten (map (entry_text valueNameGetter) entries)
                 ++ "]" ++ LF) io /\
    linked 0 entries /\
    Forall (fun e => ucpmap_getRange pMap (fst (fst e)) = (snd (fst e), snd e))
           entries /\
    fst (ucpmap_getRange pMap (linked_next 0 entries)) < 0.
Proof.
  intros _. unfold usrc_writeUCPMap, U_ASSERT. cbn [is_TOML negb].
  rewrite andb_false_r.
  destruct (usrc_writeUCPMap_loop _ _ _ _ _) as [io1 |] eqn:E; [| discriminate].
  intros [= <-].
  apply usrc_writeUCPMap_loop_linked in E.
  destruct E as (entries & -> & Hl & Hg & Hn).
  exists entries. repeat split; trivial.
  rewrite !fprintf_fputs, !fputs_fputs. do 2 f_equal.
Qed.

(** ** More on the code point trie *)

Lemma stderr_usrc_writeArray io prefix p width length indent postfix :
  stderr (usrc_writeArray io prefix p width length indent postfix)
  = stderr io ++ (if recognized_width width then EmptyString
                  else unrecognized_width_message width).
Proof.
  destruct (recognized_width width) eqn:Hw.
  - rewrite usrc_writeArray_fputs by exact Hw. cbn. now rewrite append_nil_r.
  - now rewrite usrc_writeArray_unrecognized by exact Hw.
Qed.

Lemma stderr_usrc_writeUCPTrieStruct io prefix pTrie indexName dataName postfix
  syntax :
  stderr (usrc_writeUCPTrieStruct io prefix pTrie indexName dataName postfix
                                  syntax)
  = stderr io.
Proof.
  unfold usrc_writeUCPTrieStruct.
  destruct prefix, postfix, (is_CCODE syntax); reflexivity.
Qed.

Lemma UCPTrie_width_cases (pTrie : UCPTrie) :
  UCPTrie_width pTrie = 0 \/ recognized_width (UCPTrie_width pTrie) = true.
Proof.
  unfold UCPTrie_width.
  destruct (valueWidth pTrie =? UCPTRIE_VALUE_BITS_16); [now right |].
  destruct (valueWidth pTrie =? UCPTRIE_VALUE_BITS_32); [now right |].
  destruct (valueWidth pTrie =? UCPTRIE_VALUE_BITS_8); [now right | now left].
Qed.

(** X14. For either syntax [usrc_writeUCPTrie] returns, and it reports on
    [stderr] exactly when the value width tag of the trie is none of the
    three: one line, for the width 0, and nothing otherwise. *)
Theorem usrc_writeUCPTrie_diagnostic
  (io : stdio) (name : string) (pTrie : UCPTrie) (syntax : UTargetSyntax) :
  syntax = UPRV_TARGET_SYNTAX_CCODE \/ syntax = UPRV_TARGET_SYNTAX_TOML ->
  exists io',
    usrc_writeUCPTrie io name pTrie syntax = Returned io' /\
    stderr io'
    = stderr io ++ (if recognized_width (UCPTrie_width pTrie) then EmptyString
                    else unrecognized_width_message 0).
Proof.
  intros [-> | ->]; unfold usrc_writeUCPTrie; eexists; (split; [reflexivity |]);
    rewrite stderr_usrc_writeUCPTrieStruct; unfold usrc_writeUCPTrieArrays;
    rewrite !stderr_usrc_writeArray; cbn [recognized_width Z.eqb orb];
    rewrite append_nil_r;
    destruct (UCPTrie_width_cases pTrie) as [E | E]; rewrite E; reflexivity.
Qed.

Lemma substring_all (s : string) :
  forall n : nat, (String.length s <= n)%nat -> substring 0 n s = s.
Proof.
  induction s as [| a s IH]; intros [| n] H; cbn in *; try lia; trivial.
  f_equal. apply IH. lia.
Qed.

Lemma length_app (a b : string) :
  String.length (a ++ b) = (String.length a + String.length b)%nat.
Proof. induction a; cbn; [| rewrite IHa]; reflexivity. Qed.

(** A text with no percent sign in a format is written as it is. *)
Lemma sprintf_literal (s fmt : string) (args : list arg) :
  count_char "%" s = 0 -> sprintf (s ++ fmt) args = s ++ sprintf fmt args.
Proof.
  unfold sprintf. induction s as [| a s IH]; intros H; [reflexivity |].
  cbn [count_char] in H. pose proof (count_char_nonneg "%" s).
  destruct (Ascii.eqb a "%") eqn:Ea; [lia |].
  cbn [append printf_pieces]. rewrite Ea. cbn [negb map flatten piece_text append].
  now rewrite IH by lia.
Qed.

Lemma f_usrc_writeArray_appends io prefix p width length indent postfix :
  exists t,
    f (usrc_writeArray io prefix p width length indent postfix) = f io ++ t.
Proof.
  destruct (recognized_width width) eqn:Hw.
  - rewrite usrc_writeArray_fputs by exact Hw. eexists. reflexivity.
  - rewrite usrc_writeArray_unrecognized by exact Hw.
    exists EmptyString. cbn. now rewrite append_nil_r.
Qed.

Lemma f_usrc_writeUCPTrieStruct_appends io prefix pTrie indexName dataName
  postfix syntax :
  exists t,
    f (usrc_writeUCPTrieStruct io prefix pTrie indexName dataName postfix syntax)
    = f io ++ t.
Proof.
  unfold usrc_writeUCPTrieStruct.
  rewrite f_fputs_opt. cbn [fprintf f].
  destruct (is_CCODE syntax); cbn [fprintf f]; rewrite f_fputs_opt;
    rewrite !append_assoc; eexists; reflexivity.
Qed.

(** X15. For a name of at most 59 characters with no percent sign in it,
    the C output of [usrc_writeUCPTrie] begins with the declaration of the
    index array under that name and with the index length as its size:
    nothing of the line is cut by the 100 character buffer. *)
Theorem usrc_writeUCPTrie_declaration
  (io : stdio) (name : string) (pTrie : UCPTrie) :
  (String.length name <= 59)%nat ->
  count_char "%" name = 0 ->
  exists io' rest,
    usrc_writeUCPTrie io name pTrie UPRV_TARGET_SYNTAX_CCODE = Returned io' /\
    f io'
    = f io ++ "static const uint16_t " ++ name ++ "_trieIndex["
      ++ dec (to_signed LONG_BITS (indexLength pTrie)) ++ "]={" ++ LF ++ rest.
Proof.
  intros Hlen Hpc. unfold usrc_writeUCPTrie.
  assert (El : snprintf 100 ("static const uint16_t %s_trieIndex[%%ld]={" ++ LF)
                        [Str name]
               = "static const uint16_t " ++ name ++ "_trieIndex[%ld]={" ++ LF).
  { unfold snprintf.
    replace (sprintf ("static const uint16_t %s_trieIndex[%%ld]={" ++ LF)
                     [Str name])
      with ("static const uint16_t " ++ name ++ "_trieIndex[%ld]={" ++ LF)
      by (run_printf; reflexivity).
    apply substring_all. rewrite !length_app. cbn. lia. }
  rewrite El. set (line := "static const uint16_t " ++ name ++ "_trieIndex[%ld]={" ++ LF).
  eexists. unfold usrc_writeUCPTrieArrays.
  destruct (f_usrc_writeUCPTrieStruct_appends
              (usrc_writeArray
                 (usrc_writeArray io (Some line) (index pTrie) 16
                    (indexLength pTrie) EmptyString
                    (Some (snprintf 100 (LF ++ "};" ++ LF ++ LF) [])))
                 (Some (snprintf 100
                          ("static const uint%d_t %s_trieData[%%ld]={" ++ LF)
                          [Int (UCPTrie_width pTrie); Str name]))
                 (data pTrie) (UCPTrie_width pTrie) (dataLength pTrie)
                 EmptyString
                 (Some (snprintf 100 (LF ++ "};" ++ LF ++ LF) [])))
              (Some (snprintf 100 ("static const UCPTrie %s_trie={" ++ LF)
                              [Str name]))
              pTrie (snprintf 100 "%s_trieIndex" [Str name])
              (snprintf 100 "%s_trieData" [Str name])
              (Some (snprintf 100 ("};" ++ LF ++ LF) []))
              UPRV_TARGET_SYNTAX_CCODE) as [t3 E3].
  destruct (f_usrc_writeArray_appends
              (usrc_writeArray io (Some line) (index pTrie) 16
                 (indexLength pTrie) EmptyString
                 (Some (snprintf 100 (LF ++ "};" ++ LF ++ LF) [])))
              (Some (snprintf 100
                       ("static const uint%d_t %s_trieData[%%ld]={" ++ LF)
                       [Int (UCPTrie_width pTrie); Str name]))
              (data pTrie) (UCPTrie_width pTrie) (dataLength pTrie)
              EmptyString
              (Some (snprintf 100 (LF ++ "};" ++ LF ++ LF) []))) as [t2 E2].
  eexists. split; [reflexivity |].
  cbn [is_TOML]. rewrite E3, E2.
  rewrite usrc_writeArray_fputs by reflexivity.
  cbn [fputs f prefix_text]. subst line.
  rewrite (sprintf_literal "static const uint16_t ") by reflexivity.
  rewrite (sprintf_literal name) by exact Hpc.
  replace (sprintf ("_trieIndex[%ld]={" ++ LF) [Int (indexLength pTrie)])
    with ("_trieIndex[" ++ dec (to_signed LONG_BITS (indexLength pTrie))
          ++ "]={" ++ LF)
    by (run_printf; reflexivity).
  rewrite !append_assoc. reflexivity.
Qed.

(** ** The headers and the creation of the file *)

Lemma sprintf_copyright (prefix : string) (copyrightYear : Z) :
  sprintf ("%s Copyright (C) %d and later: Unicode, Inc. and others." ++ LF ++
           "%s License & terms of use: http://www.unicode.org/copyright.html"
           ++ LF)
          [Str prefix; Int copyrightYear; Str prefix]
  = prefix ++ " Copyright (C) " ++ dec (to_signed INT_BITS copyrightYear)
    ++ " and later: Unicode, Inc. and others." ++ LF
    ++ prefix
    ++ " License & terms of use: http://www.unicode.org/copyright.html" ++ LF.
Proof. run_printf. reflexivity. Qed.

Lemma sprintf_copyright_IBM (prefix : string) :
  sprintf ("%s Copyright (C) 1999-2016, International Business Machines" ++ LF ++
           "%s Corporation and others.  All Rights Reserved." ++ LF)
          [Str prefix; Str prefix]
  = prefix ++ " Copyright (C) 1999-2016, International Business Machines" ++ LF
    ++ prefix ++ " Corporation and others.  All Rights Reserved." ++ LF.
Proof. run_printf. reflexivity. Qed.

Lemma f_usrc_writeCopyrightHeader io prefix copyrightYear :
  usrc_writeCopyrightHeader io prefix copyrightYear
  = fputs (copyright_text prefix copyrightYear) io.
Proof.
  unfold usrc_writeCopyrightHeader, copyright_text.
  destruct (copyrightYear <=? 2016); rewrite !fprintf_fputs, ?fputs_fputs;
    rewrite sprintf_copyright, ?sprintf_copyright_IBM; f_equal;
    rewrite ?append_assoc, ?append_nil_r; reflexivity.
Qed.

Lemma f_usrc_writeFileNameGeneratedBy today io prefix filename generator :
  usrc_writeFileNameGeneratedBy today io prefix filename generator
  = fputs (generated_by_text prefix filename
             (match generator with Some g => g | None => today end)) io.
Proof.
  unfold usrc_writeFileNameGeneratedBy, generated_by_text.
  destruct generator; rewrite fprintf_fputs; f_equal; run_printf; reflexivity.
Qed.

Lemma prefix_app (s t : string) : String.prefix s (s ++ t) = true.
Proof.
  induction s as [| a s IH]; cbn; [now destruct t |].
  destruct (ascii_dec a a); [exact IH | congruence].
Qed.

Lemma comment_lines_skip (prefix s t : string) :
  count_char "010" s = 0 ->
  comment_lines prefix false (s ++ t) = comment_lines prefix false t.
Proof.
  induction s as [| a s IH]; intros H; [reflexivity |].
  cbn [count_char] in H. pose proof (count_char_nonneg "010" s).
  destruct (Ascii.eqb a "010") eqn:Ea; [lia |].
  cbn [append comment_lines]. rewrite Ea. cbn [negb orb andb].
  apply IH. lia.
Qed.

Lemma comment_lines_start (prefix t : string) :
  count_char "010" prefix = 0 ->
  comment_lines prefix true (prefix ++ t) = comment_lines prefix false t.
Proof.
  intros H. destruct prefix as [| a s].
  - cbn [append]. destruct t as [| b t]; [reflexivity |].
    cbn [comment_lines]. destruct (Ascii.eqb b "010"); [reflexivity |].
    reflexivity.
  - rewrite <- (comment_lines_skip (String a s) (String a s) t H).
    cbn [count_char] in H. pose proof (count_char_nonneg "010" s).
    destruct (Ascii.eqb a "010") eqn:Ea; [lia |].
    cbn [append comment_lines]. rewrite Ea.
    change (String a (s ++ t)) with (String a s ++ t).
    now rewrite prefix_app.
Qed.

Lemma comment_lines_newline (prefix t : string) (b : bool) :
  comment_lines prefix b (LF ++ t) = comment_lines prefix true t.
Proof. reflexivity. Qed.

Lemma append_nil_l (s : string) : EmptyString ++ s = s.
Proof. reflexivity. Qed.

Ltac comment_line :=
  rewrite comment_lines_start by assumption;
  repeat (rewrite comment_lines_skip
            by first [assumption | reflexivity
                     | apply count_char_dec, newline_not_numeral]);
  rewrite comment_lines_newline.

Lemma header_comment_lines (prefix filename who : string) (copyrightYear : Z) :
  count_char "010" prefix = 0 ->
  count_char "010" filename = 0 ->
  count_char "010" who = 0 ->
  comment_lines prefix true
    (copyright_text prefix copyrightYear
     ++ generated_by_text prefix filename who)
  = true.
Proof.
  intros Hp Hf Hw. unfold copyright_text, generated_by_text.
  rewrite !append_assoc.
  destruct (copyrightYear <=? 2016); rewrite ?append_assoc, ?append_nil_l;
    repeat comment_line; reflexivity.
Qed.

Lemma last_char_of_app (q : string) :
  forall (c : ascii) (r : string) (x : ascii),
    String c r = q ++ String x EmptyString -> last_char c r = x.
Proof.
  induction q as [| a q IH]; intros c r x E; cbn [append] in E.
  - injection E as -> ->. reflexivity.
  - injection E as -> ->. destruct q as [| b q]; cbn [append last_char].
    + reflexivity.
    + apply (IH b). reflexivity.
Qed.

Lemma last_char_ends (r : string) :
  forall c, exists q, String c r = q ++ String (last_char c r) EmptyString.
Proof.
  induction r as [| d r IH]; intros c.
  - now exists EmptyString.
  - destruct (IH d) as [q E]. exists (String c q). cbn [append last_char].
    now rewrite E.
Qed.

(** X16. When the path and the file name fit the buffer, the name that is
    opened is the path, then at most one separator, then the file name;
    the separator is left out exactly when the path is empty or already
    ends with one of the two separator characters. *)
Theorem usrc_createWithoutHeader_p_joins
  (U_FILE_SEP_CHAR U_FILE_ALT_SEP_CHAR : ascii) (path filename : string) :
  (String.length path + String.length filename + 2 <= 1024)%nat ->
  exists sep,
    usrc_createWithoutHeader_p U_FILE_SEP_CHAR U_FILE_ALT_SEP_CHAR (Some path)
                               filename
    = Some (path ++ sep ++ filename) /\
    (sep = EmptyString \/ sep = String U_FILE_SEP_CHAR EmptyString) /\
    (sep = EmptyString <->
     path = EmptyString \/
     exists q, path = q ++ String U_FILE_SEP_CHAR EmptyString \/
               path = q ++ String U_FILE_ALT_SEP_CHAR EmptyString).
Proof.
  intros H. unfold usrc_createWithoutHeader_p.
  replace (1024 <? Z.of_nat (String.length path) + 1) with false
    by (symmetry; apply Z.ltb_ge; lia).
  destruct path as [| c r].
  - exists EmptyString. cbn [String.length append] in *.
    replace (1024 <? Z.of_nat 0 + Z.of_nat (String.length filename) + 1)
      with false by (symmetry; apply Z.ltb_ge; lia).
    repeat split; auto.
  - destruct (Ascii.eqb_spec (last_char c r) U_FILE_SEP_CHAR) as [Es | Es];
      [| destruct (Ascii.eqb_spec (last_char c r) U_FILE_ALT_SEP_CHAR)
           as [Ea | Ea]]; cbn [negb andb].
    + exists EmptyString.
      replace (1024 <? Z.of_nat (String.length (String c r))
                       + Z.of_nat (String.length filename) + 1)
        with false by (symmetry; apply Z.ltb_ge; lia).
      repeat split; auto. intros _. right.
      destruct (last_char_ends r c) as [q E]. exists q. left. now rewrite <- Es.
    + exists EmptyString.
      replace (1024 <? Z.of_nat (String.length (String c r))
                       + Z.of_nat (String.length filename) + 1)
        with false by (symmetry; apply Z.ltb_ge; lia).
      repeat split; auto. intros _. right.
      destruct (last_char_ends r c) as [q E]. exists q. right. now rewrite <- Ea.
    + exists (String U_FILE_SEP_CHAR EmptyString).
      replace (1024 <? Z.of_nat (String.length (String c r)) + 1
                       + Z.of_nat (String.length filename) + 1)
        with false by (symmetry; apply Z.ltb_ge; lia).
      rewrite append_assoc. repeat split; auto; try discriminate.
      intros [E | [q [E | E]]]; [discriminate | |];
        apply last_char_of_app in E; congruence.
Qed.

(** X17. When the file cannot be opened, [usrc_create] and
    [usrc_createTextData] return the null pointer and write no header; the
    one thing they do is report the path and the file name on [stderr],
    under the name [usrc_create] for both. *)
Theorem usrc_create_unable
  (U_FILE_SEP_CHAR U_FILE_ALT_SEP_CHAR : ascii) (fopen : string -> bool)
  (today err : string) (path : option string) (filename : string)
  (copyrightYear : Z) (generator : option string) (p : string) :
  usrc_createWithoutHeader_p U_FILE_SEP_CHAR U_FILE_ALT_SEP_CHAR path filename
  = Some p ->
  fopen p = false ->
  usrc_create U_FILE_SEP_CHAR U_FILE_ALT_SEP_CHAR fopen today err path filename
              copyrightYear generator
  = Some (nullptr (err ++ "usrc_create(" ++ opt_text path ++ ", " ++ filename
                   ++ "): unable to create file" ++ LF)) /\
  usrc_createTextData U_FILE_SEP_CHAR U_FILE_ALT_SEP_CHAR fopen today err path
                      filename copyrightYear generator
  = Some (nullptr (err ++ "usrc_create(" ++ opt_text path ++ ", " ++ filename
                   ++ "): unable to create file" ++ LF)).
Proof.
  intros Hp Hf.
  unfold usrc_create, usrc_createTextData, usrc_createWithoutHeader.
  rewrite Hp, Hf.
  replace (sprintf ("usrc_create(%s, %s): unable to create file" ++ LF)
                   [Str (opt_text path); Str filename])
    with ("usrc_create(" ++ opt_text path ++ ", " ++ filename
          ++ "): unable to create file" ++ LF)
    by (run_printf; reflexivity).
  split; reflexivity.
Qed.

(** X18. The file that [usrc_create] opens begins as a block of comments:
    when the file name and the generator (or the date, when there is no
    generator) hold no newline, every line written is empty or begins with
    the two slashes, and [usrc_createTextData] opens the same name and
    writes lines that are empty or begin with the hash sign; [stderr] is
    left as it is. *)
Theorem usrc_create_comment_block
  (U_FILE_SEP_CHAR U_FILE_ALT_SEP_CHAR : ascii) (fopen : string -> bool)
  (today err : string) (path : option string) (filename : string)
  (copyrightYear : Z) (generator : option string) (p : string) (io : stdio) :
  count_char "010" filename = 0 ->
  count_char "010" (match generator with Some g => g | None => today end) = 0 ->
  usrc_create U_FILE_SEP_CHAR U_FILE_ALT_SEP_CHAR fopen today err path
              filename copyrightYear generator
  = Some (opened p io) ->
  comment_lines "//" true (f io) = true /\
  stderr io = err /\
  exists io2,
    usrc_createTextData U_FILE_SEP_CHAR U_FILE_ALT_SEP_CHAR fopen today err
                        path filename copyrightYear generator
    = Some (opened p io2) /\
    comment_lines "#" true (f io2) = true /\
    stderr io2 = err.
Proof.
  intros Hf Hw.
  unfold usrc_create, usrc_createTextData, usrc_createWithoutHeader.
  destruct (usrc_createWithoutHeader_p _ _ _ _) as [p0 |]; [| discriminate].
  destruct (fopen p0); [| discriminate].
  rewrite !f_usrc_writeCopyrightHeader, !f_usrc_writeFileNameGeneratedBy,
    !fputs_fputs.
  intros E. injection E as -> E. rewrite <- E.
  split; [| split; [reflexivity |]].
  - apply (header_comment_lines "//" filename _ copyrightYear eq_refl Hf Hw).
  - eexists. split; [reflexivity |]. split; [| reflexivity].
    apply (header_comment_lines "#" filename _ copyrightYear eq_refl Hf Hw).
Qed.

(** ** The further theorems at work *)

Lemma digit_ascii (c shift : Z) : all_ascii (digit c shift) = true.
Proof.
  unfold digit. change 0xF with (Z.ones 4). rewrite Z.land_ones by lia.
  change (2 ^ 4) with 16.
  assert (Hk : (Z.to_nat (Z.shiftr c shift mod 16) < 16)%nat).
  { pose proof (Z.mod_pos_bound (Z.shiftr c shift) 16 ltac:(lia)). lia. }
  revert Hk. generalize (Z.to_nat (Z.shiftr c shift mod 16)) as k. intros k Hk.
  do 16 (destruct k as [| k]; [reflexivity |]). lia.
Qed.

Lemma ascii_escapeUnprintable_ascii (cp : Z) :
  all_ascii (ascii_escapeUnprintable cp) = true.
Proof.
  unfold ascii_escapeUnprintable.
  destruct (Z.land cp (Z.lnot 65535) =? 0);
    rewrite !all_ascii_app, !digit_ascii; reflexivity.
Qed.

Lemma example_text_bytes (j : Z) : 0 <= j < 34 -> 0x20 <= byte example_text j.
Proof.
  intros Hj. rewrite <- (Z2Nat.id j) by lia.
  assert (Hk : (Z.to_nat j < 34)%nat) by lia.
  revert Hk. generalize (Z.to_nat j) as k. intros k Hk.
  do 34 (destruct k as [| k]; [vm_compute; discriminate |]). lia.
Qed.

Lemma endless_map_endless (start : Z) :
  0 <= fst (ucpmap_getRange endless_map start) < 0x7FFFFFFF.
Proof. cbn. lia. Qed.

Lemma two_ranges_below (start : Z) :
  fst (ucpmap_getRange two_ranges start) < 0x7FFFFFFF.
Proof.
  unfold ucpmap_getRange, two_ranges.
  destruct ((0 <=? start) && (start <=? 0x7F)); [cbn; lia |].
  destruct ((0x80 <=? start) && (start <=? 0x10FFFF)); cbn; lia.
Qed.

Lemma usrc_writeArray_closed_form_witness :
  usrc_writeArray stdio0 None [1; 2; 300] 16 3 EmptyString None
  = mkStdio "1,2,0x12c" EmptyString.
Proof.
  exact (usrc_writeArray_closed_form stdio0 None [1; 2; 300] 16 3 EmptyString
           None eq_refl).
Defined.

Lemma usrc_writeArray_no_elements_witness :
  usrc_writeArray stdio0 (Some "x[%ld]={") [1] 8 (-1) EmptyString (Some "};")
  = mkStdio "x[-1]={};" EmptyString.
Proof.
  refine (usrc_writeArray_no_elements stdio0 (Some "x[%ld]={") [1] 8 (-1)
            EmptyString (Some "};") eq_refl _).
  lia.
Defined.

Lemma usrc_writeArrayOfMostlyInvChars_text_lines_witness :
  count_char "010"
    (f (usrc_writeArrayOfMostlyInvChars stdio0 None example_text 34 None))
  = 1.
Proof.
  refine (proj1 (usrc_writeArrayOfMostlyInvChars_text_lines
                   stdio0 None example_text 34 None _ example_text_bytes)).
  lia.
Defined.

Lemma usrc_writeStringAsASCII_all_ascii_witness :
  exists t,
    usrc_writeStringAsASCII true ascii_isUnprintable ascii_escapeUnprintable
                            stdio0 [97; 0xE9; 0xD83D; 0xDE00] 4
                            UPRV_TARGET_SYNTAX_TOML
    = Returned (fputs t stdio0) /\
    all_ascii t = true.
Proof.
  exact (usrc_writeStringAsASCII_all_ascii
           true ascii_isUnprintable ascii_escapeUnprintable stdio0
           [97; 0xE9; 0xD83D; 0xDE00] 4 UPRV_TARGET_SYNTAX_TOML
           ascii_isUnprintable_beyond ascii_escapeUnprintable_ascii).
Defined.

Lemma usrc_writeStringAsASCII_asserts_witness :
  exists io',
    usrc_writeStringAsASCII true lax_isUnprintable ascii_escapeUnprintable
                            stdio0 [97; 0xE9] 2 UPRV_TARGET_SYNTAX_TOML
    = Aborted io'.
Proof.
  refine (usrc_writeStringAsASCII_asserts
            lax_isUnprintable ascii_escapeUnprintable stdio0 [97; 0xE9] 2
            UPRV_TARGET_SYNTAX_TOML 0xE9 _ _ eq_refl).
  - right. left. reflexivity.
  - lia.
Defined.

Lemma usrc_writeUnicodeSet_range_after_string_witness :
  usrc_writeUnicodeSet true ascii_isUnprintable ascii_escapeUnprintable stdio0
    [set_range 0x41 0x5A; set_string [99; 104]; set_range 0x61 0x7A]
    UPRV_TARGET_SYNTAX_TOML
  = Aborted
      (fputs (set_header ++ "ranges = [" ++ LF
              ++ "  [0x41, 0x5a]," ++ LF
              ++ "]" ++ LF
              ++ "strings = [" ++ LF
              ++ "  " ++ DQUOTE ++ "ch" ++ DQUOTE ++ "," ++ LF)
             stdio0).
Proof.
  exact (usrc_writeUnicodeSet_range_after_string
           ascii_isUnprintable ascii_escapeUnprintable stdio0
           [(0x41, 0x5A)] [99; 104] [] 0x61 0x7A []
           ascii_isUnprintable_beyond).
Defined.

Lemma usrc_writeUnicodeSet_syntax_asserted_witness :
  usrc_writeUnicodeSet true ascii_isUnprintable ascii_escapeUnprintable stdio0
                       [set_range 0x41 0x5A] UPRV_TARGET_SYNTAX_CCODE
  = Aborted stdio0.
Proof.
  refine (proj1 (usrc_writeUnicodeSet_syntax_asserted
                   ascii_isUnprintable ascii_escapeUnprintable stdio0
                   [set_range 0x41 0x5A] 3 two_ranges None
                   UPRV_TARGET_SYNTAX_CCODE _)).
  discriminate.
Defined.

Lemma usrc_writeUCPMap_never_returns_witness :
  usrc_writeUCPMap true 1000 stdio0 endless_map None UPRV_TARGET_SYNTAX_TOML
  = None.
Proof.
  exact (usrc_writeUCPMap_never_returns true 1000 stdio0 endless_map None
           endless_map_endless).
Defined.

Lemma usrc_writeUCPMap_linked_witness :
  exists entries,
    mkStdio (map_header ++ "ranges = [" ++ LF
             ++ "  {a=0x0, b=0x7f, v=0}," ++ LF
             ++ "  {a=0x80, b=0x10ffff, v=1}," ++ LF
             ++ "]" ++ LF)
            EmptyString
    = fputs (map_header ++ ("ranges = [" ++ LF)
             ++ flatten (map (entry_text None) entries)
             ++ "]" ++ LF) stdio0 /\
    linked 0 entries /\
    Forall (fun e => ucpmap_getRange two_ranges (fst (fst e))
                     = (snd (fst e), snd e)) entries /\
    fst (ucpmap_getRange two_ranges (linked_next 0 entries)) < 0.
Proof.
  exact (usrc_writeUCPMap_linked true 3 stdio0 _ two_ranges None
           two_ranges_below usrc_writeUCPMap_two_ranges).
Defined.

Lemma usrc_writeUCPTrie_diagnostic_witness :
  exists io',
    usrc_writeUCPTrie stdio0 "t" example_trie_bad_width UPRV_TARGET_SYNTAX_TOML
    = Returned io' /\
    stderr io' = "usrc_writeArray(width=0) unrecognized width" ++ LF.
Proof.
  exact (usrc_writeUCPTrie_diagnostic stdio0 "t" example_trie_bad_width
           UPRV_TARGET_SYNTAX_TOML (or_intror eq_refl)).
Defined.

Lemma usrc_writeUCPTrie_declaration_witness :
  exists io' rest,
    usrc_writeUCPTrie stdio0 "foo" example_trie UPRV_TARGET_SYNTAX_CCODE
    = Returned io' /\
    f io' = "static const uint16_t foo_trieIndex[3]={" ++ LF ++ rest.
Proof.
  refine (usrc_writeUCPTrie_declaration stdio0 "foo" example_trie _ eq_refl).
  cbn. lia.
Defined.

Lemma usrc_createWithoutHeader_p_joins_witness :
  exists sep,
    usrc_createWithoutHeader_p "/" "/" (Some "out") "a.h"
    = Some ("out" ++ sep ++ "a.h") /\
    (sep = EmptyString \/ sep = "/") /\
    (sep = EmptyString <->
     "out" = EmptyString \/
     exists q, "out" = q ++ "/" \/ "out" = q ++ "/").
Proof.
  refine (usrc_createWithoutHeader_p_joins "/" "/" "out" "a.h" _).
  cbn. lia.
Defined.

Lemma usrc_create_unable_witness :
  usrc_create "/" "/" example_fopen example_today EmptyString (Some "/ro") "a.h"
              2016 None
  = Some (nullptr ("usrc_create(/ro, a.h): unable to create file" ++ LF)).
Proof.
  exact (proj1 (usrc_create_unable "/" "/" example_fopen example_today
                  EmptyString (Some "/ro") "a.h" 2016 None "/ro/a.h"
                  eq_refl eq_refl)).
Defined.

Lemma usrc_create_comment_block_witness :
  comment_lines "//" true
    ("// Copyright (C) 2017 and later: Unicode, Inc. and others." ++ LF
     ++ "// License & terms of use: http://www.unicode.org/copyright.html" ++ LF
     ++ "//" ++ LF
     ++ "// file name: a.h" ++ LF
     ++ "//" ++ LF
     ++ "// machine-generated by: gen" ++ LF
     ++ LF)
  = true.
Proof.
  exact (proj1 (usrc_create_comment_block "/" "/" example_fopen example_today
                  EmptyString (Some "out") "a.h" 2017 (Some "gen") "out/a.h"
                  (mkStdio _ EmptyString) eq_refl eq_refl eq_refl)).
Defined.

(** The file [usrc_create] writes in the example. *)
Example usrc_create_example :
  usrc_create "/" "/" example_fopen example_today EmptyString (Some "out")
              "a.h" 2017 (Some "gen")
  = Some (opened "out/a.h"
            (mkStdio
               ("// Copyright (C) 2017 and later: Unicode, Inc. and others." ++ LF
                ++ "// License & terms of use: http://www.unicode.org/copyright.html"
                ++ LF
                ++ "//" ++ LF
                ++ "// file name: a.h" ++ LF
                ++ "//" ++ LF
                ++ "// machine-generated by: gen" ++ LF
                ++ LF)
               EmptyString)).
Proof. vm_compute. reflexivity. Qed.

(** * The elements and the separators in the file *)

Lemma chars_body_text_S (p : list Z) (n : nat) :
  chars_body_text p (S n)
  = chars_body_text p n
    ++ chars_separator_text p n ++ byte_text (byte p (Z.of_nat n)).
Proof.
  unfold chars_body_text. rewrite seq_S, map_app, flatten_app.
  cbn [map flatten Nat.add]. now rewrite append_nil_r.
Qed.

Lemma usrc_writeArrayOfMostlyInvChars_loop_closed p io (n : nat) :
  c_io (usrc_writeArrayOfMostlyInvChars_loop p n io)
  = fputs (chars_body_text p n) io.
Proof.
  induction n as [| n IH].
  - cbn. now rewrite fputs_nil.
  - destruct (usrc_writeArrayOfMostlyInvChars_loop_invariant p io n)
      as (Ei & Ec & Ep & Ep2).
    rewrite usrc_writeArrayOfMostlyInvChars_loop_S, chars_body_text_S.
    set (s := usrc_writeArrayOfMostlyInvChars_loop p n io) in *.
    unfold usrc_writeArrayOfMostlyInvChars_body,
      usrc_writeArrayOfMostlyInvChars_separator, chars_separator_text.
    rewrite Ei, Ec, Ep, Ep2, IH. fold (byte p (Z.of_nat n)).
    rewrite <- line_break_rule_break. cbv zeta.
    destruct (0 <? Z.of_nat n);
      [destruct (line_break_rule _ _ _ _) |];
      cbn [c_io]; rewrite fprintf_fputs, sprintf_byte by apply byte_range;
      fold (byte_text (byte p (Z.of_nat n)));
      try change (fputc "," (fputs (chars_body_text p n) io))
            with (fputs "," (fputs (chars_body_text p n) io));
      rewrite !fputs_fputs, ?append_assoc; reflexivity.
Qed.

Lemma usrc_writeArrayOfMostlyInvChars_fputs io prefix p length postfix :
  usrc_writeArrayOfMostlyInvChars io prefix p length postfix
  = fputs (prefix_text prefix length
           ++ chars_body_text p (Z.to_nat length)
           ++ opt_text postfix) io.
Proof.
  unfold usrc_writeArrayOfMostlyInvChars.
  rewrite usrc_writeArrayOfMostlyInvChars_loop_closed.
  destruct prefix, postfix; cbn [fprintf_opt fputs_opt];
    rewrite ?fprintf_fputs, ?fputs_fputs; unfold prefix_text, opt_text;
    rewrite ?append_nil_r; reflexivity.
Qed.

Lemma literal_value_element (p : list Z) (width k : Z) :
  literal_value (array_element_text p width k)
  = Some (usrc_writeArray_value p width k).
Proof.
  unfold array_element_text.
  set (value := usrc_writeArray_value p width k).
  destruct (Z.ltb_spec value 0) as [Hn | Hn].
  - rewrite <- (dec_negative value Hn).
    apply literal_value_dec. now left.
  - destruct (Z.leb_spec value 9) as [H9 | H9].
    + rewrite <- (dec_digit value) by lia.
      apply literal_value_dec. right. exists (Z.to_nat value). lia.
    + apply literal_value_hex. lia.
Qed.

(** C2, as the code has it.  What [usrc_writeArray] leaves in the file for
    an array of a recognised width is the text already there, the prefix
    with the length filled in, then for every element in turn its
    separator and its value, then the postfix, and nothing goes to the
    error stream.  The value of an element is written as the single
    decimal digit when it lies between 0 and 9, as a hexadecimal literal
    with the 0x prefix when it is above 9, and in decimal with a leading
    minus sign when it is negative; only the width of 64 bits, the signed
    one, has negative values. *)
Theorem usrc_writeArray_base_selection
    (io : stdio) (prefix : option string) (p : list Z) (width length : Z)
    (indent : string) (postfix : option string) :
  recognized_width width = true ->
  usrc_writeArray io prefix p width length indent postfix
  = mkStdio
      (f io ++ prefix_text prefix length
       ++ flatten
            (map (fun k : nat =>
                    let value := usrc_writeArray_value p width (Z.of_nat k) in
                    array_separator_text indent (Z.of_nat k)
                    ++ (if value <? 0 then String "-" (dec (- value))
                        else if value <=? 9 then decimal_digit value
                        else "0x" ++ hex value))
                 (seq 0 (Z.to_nat length)))
       ++ opt_text postfix)
      (stderr io) /\
  (forall k : Z, usrc_writeArray_value p width k < 0 -> width = 64).
Proof.
  intros Hw. split.
  - rewrite usrc_writeArray_fputs by exact Hw. reflexivity.
  - intros k. apply (usrc_writeArray_value_range p width k).
Qed.

(** Three elements of the signed width: a digit, a value above 9 and a
    negative one. *)
Lemma usrc_writeArray_base_selection_witness :
  usrc_writeArray stdio0 None [5; 12; -3] 64 3 EmptyString None
  = mkStdio "5,0xc,-3" EmptyString.
Proof.
  exact (proj1 (usrc_writeArray_base_selection
                  stdio0 None [5; 12; -3] 64 3 EmptyString None eq_refl)).
Defined.

(** C8. What [usrc_writeArrayOfMostlyInvChars] leaves in the file is the
    text already there, the prefix with the length filled in, then every
    byte in turn behind its separator, then the postfix.  The separator is
    empty before the first byte; before every later byte it is a comma and
    a line break when the first of the three rules that applies says so,
    and a bare comma otherwise.  The rules look at the number of elements
    already on the line, at the two bytes before and at the byte to come:
    32 elements on the line; at least 24 with a zero just after a
    printable byte; at least 16 with a control byte from 1 to 31 to come
    after a zero or a printable byte.  The loop keeps exactly these
    quantities in its variables. *)
Theorem usrc_writeArrayOfMostlyInvChars_line_breaks
    (io : stdio) (prefix : option string) (p : list Z) (length : Z)
    (postfix : option string) :
  usrc_writeArrayOfMostlyInvChars io prefix p length postfix
  = mkStdio
      (f io ++ prefix_text prefix length
       ++ flatten
            (map (fun k : nat =>
                    let i := Z.of_nat k in
                    (if 0 <? i then
                       if line_break_rule (line_fill p k) (byte_before p i 2)
                                          (byte_before p i 1) (byte p i)
                       then "," ++ LF
                       else ","
                     else EmptyString)
                    ++ byte_text (byte p i))
                 (seq 0 (Z.to_nat length)))
       ++ opt_text postfix)
      (stderr io) /\
  (forall (out : stdio) (k : nat),
     (0 < k)%nat ->
     let s := usrc_writeArrayOfMostlyInvChars_loop p k out in
     let i := Z.of_nat k in
     c_i s = i /\ c_col s = line_fill p k /\
     c_prev s = byte p (i - 1) /\ c_prev2 s = byte_before p i 2 /\
     byte_before p i 1 = byte p (i - 1) /\
     usrc_writeArrayOfMostlyInvChars_separator
       (c_i s) (c_col s) (c_prev2 s) (c_prev s) (byte p i) (c_io s)
     = if line_break_rule (line_fill p k) (byte_before p i 2)
                          (byte p (i - 1)) (byte p i)
       then (fputs ("," ++ LF) (c_io s), 0)
       else (fputc "," (c_io s), line_fill p k)).
Proof.
  split.
  - rewrite usrc_writeArrayOfMostlyInvChars_fputs. reflexivity.
  - intros out k Hk.
    destruct (usrc_writeArrayOfMostlyInvChars_loop_invariant p out k)
      as (Ei & Ec & Ep & Ep2).
    cbv zeta.
    set (s := usrc_writeArrayOfMostlyInvChars_loop p k out) in *.
    assert (Eb : byte_before p (Z.of_nat k) 1 = byte p (Z.of_nat k - 1)).
    { unfold byte_before.
      now replace (1 <=? Z.of_nat k) with true
        by (symmetry; apply Z.leb_le; lia). }
    rewrite Eb in Ep. repeat split; trivial.
    unfold usrc_writeArrayOfMostlyInvChars_separator.
    rewrite Ei, Ec, Ep, Ep2, <- line_break_rule_break.
    now replace (0 <? Z.of_nat k) with true by (symmetry; apply Z.ltb_lt; lia).
Qed.

(** Eighteen bytes: sixteen letters, then a control byte, which breaks the
    line, then one more letter. *)
Lemma usrc_writeArrayOfMostlyInvChars_line_breaks_witness :
  usrc_writeArrayOfMostlyInvChars stdio0 None example_bytes 18 None
  = mkStdio
      ("'a','a','a','a','a','a','a','a','a','a','a','a','a','a','a','a',"
       ++ LF ++ "1,'b'")
      EmptyString.
Proof.
  exact (proj1 (usrc_writeArrayOfMostlyInvChars_line_breaks
                  stdio0 None example_bytes 18 None)).
Defined.

(** C10. In what [usrc_writeArrayOfMostlyInvChars] leaves in the file,
    every byte stands behind its separator as a bare decimal integer when
    it is below 0x20, and as the raw byte between single quotes when it is
    0x20 or above; the writer looks at nothing else, so the quote and the
    backslash are not escaped, and bytes from 0x7f on are written raw. *)
Theorem usrc_writeArrayOfMostlyInvChars_rendering
    (io : stdio) (prefix : option string) (p : list Z) (length : Z)
    (postfix : option string) :
  usrc_writeArrayOfMostlyInvChars io prefix p length postfix
  = mkStdio
      (f io ++ prefix_text prefix length
       ++ flatten
            (map (fun k : nat =>
                    let c := byte p (Z.of_nat k) in
                    chars_separator_text p k
                    ++ (if c <? 0x20 then dec c
                        else "'" ++ String (ascii_of_N (Z.to_N c)) EmptyString
                             ++ "'"))
                 (seq 0 (Z.to_nat length)))
       ++ opt_text postfix)
      (stderr io) /\
  (forall k : Z, 0 <= byte p k < 256).
Proof.
  split.
  - rewrite usrc_writeArrayOfMostlyInvChars_fputs. reflexivity.
  - intros k. apply byte_range.
Qed.

(** X2. In what [usrc_writeArray] leaves in the file, the literal written
    for every element, decimal or hexadecimal, signed or not, reads back
    as the value of the element. *)
Theorem usrc_writeArray_literal_roundtrip
    (io : stdio) (prefix : option string) (p : list Z) (width length : Z)
    (indent : string) (postfix : option string) :
  recognized_width width = true ->
  usrc_writeArray io prefix p width length indent postfix
  = mkStdio
      (f io ++ prefix_text prefix length
       ++ flatten
            (map (fun k : nat =>
                    array_separator_text indent (Z.of_nat k)
                    ++ array_element_text p width (Z.of_nat k))
                 (seq 0 (Z.to_nat length)))
       ++ opt_text postfix)
      (stderr io) /\
  (forall k : Z,
     literal_value (array_element_text p width k)
     = Some (usrc_writeArray_value p width k)).
Proof.
  intros Hw. split.
  - rewrite usrc_writeArray_fputs by exact Hw. reflexivity.
  - intros k. apply literal_value_element.
Qed.

(** Three elements of the 8-bit width, and what the literal of the last
    reads back as. *)
Lemma usrc_writeArray_literal_roundtrip_witness :
  usrc_writeArray stdio0 None [0; 10; 255] 8 3 EmptyString None
  = mkStdio "0,0xa,0xff" EmptyString /\
  literal_value "0xff" = Some 255.
Proof.
  destruct (usrc_writeArray_literal_roundtrip
              stdio0 None [0; 10; 255] 8 3 EmptyString None eq_refl)
    as (Eout & Eback).
  split; [exact Eout | exact (Eback 2)].
Defined.
